(** * Cielo Home session client: a model of [cielohome.py]

    The class [CieloHome] keeps an authenticated websocket session alive.
    Its methods are embedded here as pure functions over an explicit
    [State]: the fields of the object, the wall clock, the heap of
    [threading.Timer] objects the object has created, the control point of
    the [async_connect_wss] task and the trace of the calls that leave the
    object (listener callbacks, frames written to the socket, log records,
    HTTP refresh calls).  Everything the environment decides (time passing,
    a timer expiring, the outcome of a handshake, of a receive, of a send,
    of an HTTP request) is an [Input] of the step function. *)

From stdpp Require Import base strings list pretty.
From Stdlib Require Import ZArith Lia Ascii.

#[local] Set Warnings "-register-all".

#[local] Open Scope string_scope.
#[local] Open Scope list_scope.
#[local] Open Scope Z_scope.

(** ** JSON values and Python dictionaries *)

(** A Python [dict] keeps its keys in insertion order and [json.dumps]
    prints them in that order, so a dictionary is an association list
    without duplicate keys: assignment to a present key replaces the value
    in place, assignment to a new key appends. *)
Inductive json : Type :=
| JNull
| JBool (b : bool)
| JInt (n : Z)
| JStr (s : string)
| JList (l : list json)
| JObj (kvs : list (string * json)).

Definition dict : Type := list (string * json).

(** [d[k] = v] *)
Fixpoint dict_set (k : string) (v : json) (d : dict) : dict :=
  match d with
  | [] => [(k, v)]
  | (k', v') :: r =>
      if String.eqb k' k then (k, v) :: r else (k', v') :: dict_set k v r
  end.

(** [d[k]]; [None] stands for [KeyError]. *)
Fixpoint dict_get (k : string) (d : dict) : option json :=
  match d with
  | [] => None
  | (k', v') :: r => if String.eqb k' k then Some v' else dict_get k r
  end.

(** [json.dumps] with its default separators, for printable ASCII text:
    a double quote and a backslash are escaped with a backslash. *)
Definition dquote : ascii := "034"%char.
Definition bslash : ascii := "092"%char.

Fixpoint escape (s : string) : string :=
  match s with
  | EmptyString => EmptyString
  | String c r =>
      if Ascii.eqb c dquote then String bslash (String dquote (escape r))
      else if Ascii.eqb c bslash then String bslash (String bslash (escape r))
      else String c (escape r)
  end.

Definition quoted (s : string) : string :=
  String dquote (escape s +:+ String dquote EmptyString).

Fixpoint dumps (j : json) : string :=
  match j with
  | JNull => "null"
  | JBool true => "true"
  | JBool false => "false"
  | JInt n => pretty n
  | JStr s => quoted s
  | JList l =>
      "[" +:+
      (fix items (l : list json) : string :=
         match l with
         | [] => EmptyString
         | [x] => dumps x
         | x :: r => dumps x +:+ ", " +:+ items r
         end) l +:+ "]"
  | JObj kvs =>
      "{" +:+
      (fix members (l : list (string * json)) : string :=
         match l with
         | [] => EmptyString
         | [(k, v)] => quoted k +:+ ": " +:+ dumps v
         | (k, v) :: r => quoted k +:+ ": " +:+ dumps v +:+ ", " +:+ members r
         end) kvs +:+ "}"
  end.

(** [needle in hay] on Python strings. *)
Definition contains (needle hay : string) : bool :=
  match String.index 0 needle hay with
  | Some _ => true
  | None => false
  end.


(** ** Timers, the connection task and the observable trace *)

(** The three callbacks handed to [threading.Timer]:
    [self.refresh_token], [self.send_ping], [self.dispatch_connection_lost]. *)
Inductive Callback : Type := CbRefresh | CbPing | CbLost.

Inductive TimerState : Type := Pending | Cancelled | Fired.

(** A started [Timer(interval, callback)]: it runs its callback once at
    [deadline] unless [cancel()] was called before. *)
Record Timer : Type := mkTimer {
  deadline : Z;
  callback : Callback;
  tstate : TimerState
}.

(** Where the [async_connect_wss] task stands.  [InLoop AtCheck] is the
    [while self._is_running] test, [InLoop AtDrain] the point after the
    receive part; [js_data] is the local variable of that name, [None]
    while it is unbound.  [Leaving exc] is the exit of the two [async with]
    blocks, [exc] telling whether an exception is in flight.  [Scheduled]
    is a task created with [create_task] (after the five second sleep for a
    reconnection) that has not run yet. *)
Inductive Phase : Type := AtCheck | AtDrain.

Inductive Task : Type :=
| NoTask
| Scheduled (after : Z) (update_state : bool)
| Connecting (update_state : bool)
| InLoop (ph : Phase) (js_data : option json)
| Leaving (exc : bool)
| Finished
| Crashed.

(** Calls that leave the object. *)
Inductive Event : Type :=
| EvLostConnection (l : nat)            (* listener.lost_connection() *)
| EvDataReceive (l : nat) (js : json)   (* listener.data_receive(js_data) *)
| EvUpdateState                         (* create_task(update_state_device()) *)
| EvRefreshCall                         (* asyncio.run(async_refresh_token()) *)
| EvConnect                             (* ws_session.ws_connect(wss_uri) *)
| EvSent (m : dict)                     (* websocket.send_json(msg) returned *)
| LogDebug (s : string)
| LogInfo (s : string)
| LogError (s : string)
| LogException.                         (* _LOGGER.error(sys.exc_info()[1]) *)

(** The object's fields (named as in [__init__]) followed by the
    environment: the clock read by [get_ts], the timers created so far
    (the fields [_timer_*] hold indices into this list, so that overwriting
    a field leaves the old timer running), the task, the trace and whether
    the logger has DEBUG enabled.  [_websocket] records
    [hasattr(self, "_websocket")]; [_last_refresh_token_ts] is [None] until
    its first assignment, as [__init__] only annotates it. *)
Record State : Type := mkState {
  _is_running : bool;
  _stop_running : bool;
  _access_token : string;
  _refresh_token : string;
  _session_id : string;
  _websocket : bool;
  __event_listener : list nat;
  _msg_to_send : list dict;
  _timer_refresh : option nat;
  _timer_ping : option nat;
  _timer_connection_lost : option nat;
  _last_refresh_token_ts : option Z;
  _last_ts_msg : Z;
  now : Z;
  timers : list Timer;
  task : Task;
  trace : list Event;
  debug : bool
}.

Definition set_is_running (v : bool) (w : State) : State :=
  {| _is_running := v; _stop_running := _stop_running w;
     _access_token := _access_token w; _refresh_token := _refresh_token w;
     _session_id := _session_id w; _websocket := _websocket w;
     __event_listener := __event_listener w; _msg_to_send := _msg_to_send w;
     _timer_refresh := _timer_refresh w; _timer_ping := _timer_ping w;
     _timer_connection_lost := _timer_connection_lost w;
     _last_refresh_token_ts := _last_refresh_token_ts w;
     _last_ts_msg := _last_ts_msg w; now := now w; timers := timers w;
     task := task w; trace := trace w; debug := debug w |}.

Definition set_stop_running (v : bool) (w : State) : State :=
  {| _is_running := _is_running w; _stop_running := v;
     _access_token := _access_token w; _refresh_token := _refresh_token w;
     _session_id := _session_id w; _websocket := _websocket w;
     __event_listener := __event_listener w; _msg_to_send := _msg_to_send w;
     _timer_refresh := _timer_refresh w; _timer_ping := _timer_ping w;
     _timer_connection_lost := _timer_connection_lost w;
     _last_refresh_token_ts := _last_refresh_token_ts w;
     _last_ts_msg := _last_ts_msg w; now := now w; timers := timers w;
     task := task w; trace := trace w; debug := debug w |}.

Definition set_access_token (v : string) (w : State) : State :=
  {| _is_running := _is_running w; _stop_running := _stop_running w;
     _access_token := v; _refresh_token := _refresh_token w;
     _session_id := _session_id w; _websocket := _websocket w;
     __event_listener := __event_listener w; _msg_to_send := _msg_to_send w;
     _timer_refresh := _timer_refresh w; _timer_ping := _timer_ping w;
     _timer_connection_lost := _timer_connection_lost w;
     _last_refresh_token_ts := _last_refresh_token_ts w;
     _last_ts_msg := _last_ts_msg w; now := now w; timers := timers w;
     task := task w; trace := trace w; debug := debug w |}.

Definition set_refresh_token (v : string) (w : State) : State :=
  {| _is_running := _is_running w; _stop_running := _stop_running w;
     _access_token := _access_token w; _refresh_token := v;
     _session_id := _session_id w; _websocket := _websocket w;
     __event_listener := __event_listener w; _msg_to_send := _msg_to_send w;
     _timer_refresh := _timer_refresh w; _timer_ping := _timer_ping w;
     _timer_connection_lost := _timer_connection_lost w;
     _last_refresh_token_ts := _last_refresh_token_ts w;
     _last_ts_msg := _last_ts_msg w; now := now w; timers := timers w;
     task := task w; trace := trace w; debug := debug w |}.

Definition set_session_id (v : string) (w : State) : State :=
  {| _is_running := _is_running w; _stop_running := _stop_running w;
     _access_token := _access_token w; _refresh_token := _refresh_token w;
     _session_id := v; _websocket := _websocket w;
     __event_listener := __event_listener w; _msg_to_send := _msg_to_send w;
     _timer_refresh := _timer_refresh w; _timer_ping := _timer_ping w;
     _timer_connection_lost := _timer_connection_lost w;
     _last_refresh_token_ts := _last_refresh_token_ts w;
     _last_ts_msg := _last_ts_msg w; now := now w; timers := timers w;
     task := task w; trace := trace w; debug := debug w |}.

Definition set_websocket (v : bool) (w : State) : State :=
  {| _is_running := _is_running w; _stop_running := _stop_running w;
     _access_token := _access_token w; _refresh_token := _refresh_token w;
     _session_id := _session_id w; _websocket := v;
     __event_listener := __event_listener w; _msg_to_send := _msg_to_send w;
     _timer_refresh := _timer_refresh w; _timer_ping := _timer_ping w;
     _timer_connection_lost := _timer_connection_lost w;
     _last_refresh_token_ts := _last_refresh_token_ts w;
     _last_ts_msg := _last_ts_msg w; now := now w; timers := timers w;
     task := task w; trace := trace w; debug := debug w |}.

Definition set_event_listener (v : list nat) (w : State) : State :=
  {| _is_running := _is_running w; _stop_running := _stop_running w;
     _access_token := _access_token w; _refresh_token := _refresh_token w;
     _session_id := _session_id w; _websocket := _websocket w;
     __event_listener := v; _msg_to_send := _msg_to_send w;
     _timer_refresh := _timer_refresh w; _timer_ping := _timer_ping w;
     _timer_connection_lost := _timer_connection_lost w;
     _last_refresh_token_ts := _last_refresh_token_ts w;
     _last_ts_msg := _last_ts_msg w; now := now w; timers := timers w;
     task := task w; trace := trace w; debug := debug w |}.

Definition set_msg_to_send (v : list dict) (w : State) : State :=
  {| _is_running := _is_running w; _stop_running := _stop_running w;
     _access_token := _access_token w; _refresh_token := _refresh_token w;
     _session_id := _session_id w; _websocket := _websocket w;
     __event_listener := __event_listener w; _msg_to_send := v;
     _timer_refresh := _timer_refresh w; _timer_ping := _timer_ping w;
     _timer_connection_lost := _timer_connection_lost w;
     _last_refresh_token_ts := _last_refresh_token_ts w;
     _last_ts_msg := _last_ts_msg w; now := now w; timers := timers w;
     task := task w; trace := trace w; debug := debug w |}.

Definition set_timer_refresh (v : option nat) (w : State) : State :=
  {| _is_running := _is_running w; _stop_running := _stop_running w;
     _access_token := _access_token w; _refresh_token := _refresh_token w;
     _session_id := _session_id w; _websocket := _websocket w;
     __event_listener := __event_listener w; _msg_to_send := _msg_to_send w;
     _timer_refresh := v; _timer_ping := _timer_ping w;
     _timer_connection_lost := _timer_connection_lost w;
     _last_refresh_token_ts := _last_refresh_token_ts w;
     _last_ts_msg := _last_ts_msg w; now := now w; timers := timers w;
     task := task w; trace := trace w; debug := debug w |}.

Definition set_timer_ping (v : option nat) (w : State) : State :=
  {| _is_running := _is_running w; _stop_running := _stop_running w;
     _access_token := _access_token w; _refresh_token := _refresh_token w;
     _session_id := _session_id w; _websocket := _websocket w;
     __event_listener := __event_listener w; _msg_to_send := _msg_to_send w;
     _timer_refresh := _timer_refresh w; _timer_ping := v;
     _timer_connection_lost := _timer_connection_lost w;
     _last_refresh_token_ts := _last_refresh_token_ts w;
     _last_ts_msg := _last_ts_msg w; now := now w; timers := timers w;
     task := task w; trace := trace w; debug := debug w |}.

Definition set_timer_connection_lost (v : option nat) (w : State) : State :=
  {| _is_running := _is_running w; _stop_running := _stop_running w;
     _access_token := _access_token w; _refresh_token := _refresh_token w;
     _session_id := _session_id w; _websocket := _websocket w;
     __event_listener := __event_listener w; _msg_to_send := _msg_to_send w;
     _timer_refresh := _timer_refresh w; _timer_ping := _timer_ping w;
     _timer_connection_lost := v;
     _last_refresh_token_ts := _last_refresh_token_ts w;
     _last_ts_msg := _last_ts_msg w; now := now w; timers := timers w;
     task := task w; trace := trace w; debug := debug w |}.

Definition set_last_refresh_token_ts (v : option Z) (w : State) : State :=
  {| _is_running := _is_running w; _stop_running := _stop_running w;
     _access_token := _access_token w; _refresh_token := _refresh_token w;
     _session_id := _session_id w; _websocket := _websocket w;
     __event_listener := __event_listener w; _msg_to_send := _msg_to_send w;
     _timer_refresh := _timer_refresh w; _timer_ping := _timer_ping w;
     _timer_connection_lost := _timer_connection_lost w;
     _last_refresh_token_ts := v; _last_ts_msg := _last_ts_msg w;
     now := now w; timers := timers w; task := task w; trace := trace w;
     debug := debug w |}.

Definition set_last_ts_msg (v : Z) (w : State) : State :=
  {| _is_running := _is_running w; _stop_running := _stop_running w;
     _access_token := _access_token w; _refresh_token := _refresh_token w;
     _session_id := _session_id w; _websocket := _websocket w;
     __event_listener := __event_listener w; _msg_to_send := _msg_to_send w;
     _timer_refresh := _timer_refresh w; _timer_ping := _timer_ping w;
     _timer_connection_lost := _timer_connection_lost w;
     _last_refresh_token_ts := _last_refresh_token_ts w; _last_ts_msg := v;
     now := now w; timers := timers w; task := task w; trace := trace w;
     debug := debug w |}.

Definition set_now (v : Z) (w : State) : State :=
  {| _is_running := _is_running w; _stop_running := _stop_running w;
     _access_token := _access_token w; _refresh_token := _refresh_token w;
     _session_id := _session_id w; _websocket := _websocket w;
     __event_listener := __event_listener w; _msg_to_send := _msg_to_send w;
     _timer_refresh := _timer_refresh w; _timer_ping := _timer_ping w;
     _timer_connection_lost := _timer_connection_lost w;
     _last_refresh_token_ts := _last_refresh_token_ts w;
     _last_ts_msg := _last_ts_msg w; now := v; timers := timers w;
     task := task w; trace := trace w; debug := debug w |}.

Definition set_timers (v : list Timer) (w : State) : State :=
  {| _is_running := _is_running w; _stop_running := _stop_running w;
     _access_token := _access_token w; _refresh_token := _refresh_token w;
     _session_id := _session_id w; _websocket := _websocket w;
     __event_listener := __event_listener w; _msg_to_send := _msg_to_send w;
     _timer_refresh := _timer_refresh w; _timer_ping := _timer_ping w;
     _timer_connection_lost := _timer_connection_lost w;
     _last_refresh_token_ts := _last_refresh_token_ts w;
     _last_ts_msg := _last_ts_msg w; now := now w; timers := v;
     task := task w; trace := trace w; debug := debug w |}.

Definition set_task (v : Task) (w : State) : State :=
  {| _is_running := _is_running w; _stop_running := _stop_running w;
     _access_token := _access_token w; _refresh_token := _refresh_token w;
     _session_id := _session_id w; _websocket := _websocket w;
     __event_listener := __event_listener w; _msg_to_send := _msg_to_send w;
     _timer_refresh := _timer_refresh w; _timer_ping := _timer_ping w;
     _timer_connection_lost := _timer_connection_lost w;
     _last_refresh_token_ts := _last_refresh_token_ts w;
     _last_ts_msg := _last_ts_msg w; now := now w; timers := timers w;
     task := v; trace := trace w; debug := debug w |}.

Definition set_trace (v : list Event) (w : State) : State :=
  {| _is_running := _is_running w; _stop_running := _stop_running w;
     _access_token := _access_token w; _refresh_token := _refresh_token w;
     _session_id := _session_id w; _websocket := _websocket w;
     __event_listener := __event_listener w; _msg_to_send := _msg_to_send w;
     _timer_refresh := _timer_refresh w; _timer_ping := _timer_ping w;
     _timer_connection_lost := _timer_connection_lost w;
     _last_refresh_token_ts := _last_refresh_token_ts w;
     _last_ts_msg := _last_ts_msg w; now := now w; timers := timers w;
     task := task w; trace := v; debug := debug w |}.


(** [__init__] on a process whose clock reads [t]. *)
Definition init (t : Z) (dbg : bool) : State :=
  {| _is_running := true; _stop_running := false;
     _access_token := EmptyString; _refresh_token := EmptyString;
     _session_id := EmptyString; _websocket := false;
     __event_listener := []; _msg_to_send := [];
     _timer_refresh := None; _timer_ping := None;
     _timer_connection_lost := None;
     _last_refresh_token_ts := None; _last_ts_msg := 0;
     now := t; timers := []; task := NoTask; trace := []; debug := dbg |}.

Definition emit (e : Event) (w : State) : State :=
  set_trace (trace w ++ [e]) w.

(** [_LOGGER.debug(...)]: a record only when DEBUG is enabled. *)
Definition log_debug (s : string) (w : State) : State :=
  if debug w then emit (LogDebug s) w else w.

(** ** Methods of [CieloHome] *)

Definition get_ts (w : State) : Z := now w.

(** [Timer(interval, cb).start()]: the new timer's index and the state. *)
Definition start_timer (interval : Z) (cb : Callback) (w : State) : nat * State :=
  (List.length (timers w),
   set_timers (timers w ++ [mkTimer (now w + interval) cb Pending]) w).

(** [Timer.cancel()]: a pending timer never fires; otherwise no effect. *)
Definition cancel_timer (i : nat) (w : State) : State :=
  match timers w !! i with
  | Some t =>
      match tstate t with
      | Pending =>
          set_timers (<[i := mkTimer (deadline t) (callback t) Cancelled]> (timers w)) w
      | _ => w
      end
  | None => w
  end.

Definition close (w : State) : State :=
  set_is_running false (set_stop_running true w).

Definition add_listener (l : nat) (w : State) : State :=
  set_event_listener (__event_listener w ++ [l]) w.

Definition start_timer_refreshtoken (w : State) : State :=
  let '(i, w1) := start_timer 60 CbRefresh w in set_timer_refresh (Some i) w1.

Definition start_timer_ping (w : State) : State :=
  let '(i, w1) := start_timer 588 CbPing w in set_timer_ping (Some i) w1.

Definition start_timer_connection_lost (w : State) : State :=
  let '(i, w1) := start_timer 10 CbLost w in set_timer_connection_lost (Some i) w1.

Definition stop_timer_connection_lost (w : State) : State :=
  match _timer_connection_lost w with
  | Some i => cancel_timer i w
  | None => w
  end.

Definition dispatch_connection_lost (w : State) : State :=
  set_trace (trace w ++ map EvLostConnection (__event_listener w)) w.

Definition send_json (data : dict) (w : State) : State :=
  set_msg_to_send (_msg_to_send w ++ [data]) w.

Definition send_action (msg : dict) (w : State) : State :=
  let msg := dict_set "token" (JStr (_access_token w)) msg in
  let msg := dict_set "mid" (JStr (_session_id w)) msg in
  let ts := get_ts w in
  let msg := dict_set "ts" (JInt ts) msg in
  let '(ts, msg) :=
    if ts =? _last_ts_msg w then (ts + 1, dict_set "ts" (JInt (ts + 1)) msg)
    else (ts, msg) in
  send_json msg (set_last_ts_msg ts w).

Definition send_ping (w : State) : State :=
  let data := [("message", JStr "Ping Connection Reset");
               ("token", JStr (_access_token w))] in
  let w := start_timer_ping w in
  let w := log_debug "Send Ping Connection Reset" w in
  send_json data w.

(** An HTTP exchange as the code reads it: the request raises, or a
    response arrives with its status code and, when that is 200, a JSON
    body with [status], [message] and the [data] fields. *)
Record Reply : Type := mkReply {
  http_status : Z;
  rep_status : Z;
  rep_message : string;
  rep_access : string;
  rep_refresh : string;
  rep_session : string
}.

Inductive Http : Type := NetError | Resp (r : Reply).

Definition rep_success (r : Reply) : bool :=
  (rep_status r =? 200) && String.eqb (rep_message r) "SUCCESS".

Definition async_refresh_token (h : Http) (w : State) : State :=
  let w := log_debug "Call refreshToken" w in
  match h with
  | NetError => w
  | Resp r =>
      if (http_status r =? 200) && rep_success r then
        let w := set_access_token (rep_access r) w in
        let w := set_refresh_token (rep_refresh r) w in
        let w := set_last_refresh_token_ts (Some (get_ts w)) w in
        log_debug "Call refreshToken success" w
      else w
  end.

(** The callback of the refresh timer.  An unset
    [_last_refresh_token_ts] raises [AttributeError], which ends the timer
    thread after the timer has been started again. *)
Definition refresh_token (h : Http) (w : State) : State :=
  let w := start_timer_refreshtoken w in
  match _last_refresh_token_ts w with
  | None => w
  | Some l =>
      if 1200 <? get_ts w - l then async_refresh_token h (emit EvRefreshCall w)
      else w
  end.

Definition task_live (t : Task) : bool :=
  match t with
  | NoTask | Finished | Crashed => false
  | _ => true
  end.

(** [async_auth], from the login request on.  With [connect_ws] it creates
    the connection task; one task is modelled, so the call is refused
    ([None]) where it would create a second one. *)
Definition async_auth (h : Http) (connect_ws : bool) (w : State) : option State :=
  let w := log_debug "Call Auth" w in
  match h with
  | NetError => Some w
  | Resp r =>
      if http_status r =? 200 then
        let w :=
          if rep_success r then
            set_session_id (rep_session r)
              (set_refresh_token (rep_refresh r)
                 (set_access_token (rep_access r) w))
          else w in
        let spawn := connect_ws && negb (String.eqb (_access_token w) EmptyString) in
        if spawn && task_live (task w) then None
        else
          let w := if spawn then set_task (Scheduled (now w) false) w else w in
          let w := set_last_refresh_token_ts (Some (get_ts w)) w in
          Some (start_timer_refreshtoken w)
      else Some w
  end.

(** ** The connection task [async_connect_wss] *)

Inductive WSMsgType : Type :=
| TEXT | BINARY | PING | PONG | CLOSE | CLOSING | CLOSED | ERROR.

(** What [json.loads(msg.data)] does with the frame's data: it raises
    [ValueError] on text that is not JSON, returns the decoded value, or
    raises [TypeError] on data that is no text at all. *)
Inductive Payload : Type :=
| Malformed
| Parsed (js : json)
| NotText.

(** The outcome of [await self._websocket.receive(timeout=0.1)]. *)
Inductive RecvOutcome : Type :=
| RTimeout
| RCancelled
| RRaise
| RMsg (ty : WSMsgType) (data : Payload).

Definition is_close (ty : WSMsgType) : bool :=
  match ty with
  | CLOSE | CLOSED | CLOSING => true
  | _ => false
  end.

(** Lines 182-186: the task starts to run. *)
Definition connect_begin (update_state : bool) (w : State) : State :=
  let w := set_is_running true w in
  let w := set_stop_running false w in
  set_task (Connecting update_state) (emit EvConnect w).

(** Lines 186-197: [ws_connect] returns a socket or raises. *)
Definition connect_handshake (ok update_state : bool) (w : State) : State :=
  if ok then
    let w := set_websocket true w in
    let w := emit (LogInfo "Connected success") w in
    let w := stop_timer_connection_lost w in
    let w := if update_state then emit EvUpdateState w else w in
    let w := set_last_refresh_token_ts (Some (get_ts w)) w in
    let w := start_timer_ping w in
    set_task (InLoop AtCheck None) w
  else set_task (Leaving true) w.

(** Lines 211-217: the log record of a received value; [None] is the
    [TypeError] of an item assignment on a value that is no dictionary. *)
Definition log_receive (js : json) (w : State) : option State :=
  if debug w then
    match js with
    | JObj d =>
        let debug_data := dict_set "accessToken" (JStr "*****") d in
        let debug_data := dict_set "refreshToken" (JStr "*****") debug_data in
        Some (emit (LogDebug ("Receive Json : " +:+ dumps (JObj debug_data))) w)
    | _ => None
    end
  else Some w.

Definition is_state_update (v : json) : bool :=
  match v with
  | JStr s => String.eqb s "StateUpdate"
  | _ => false
  end.

(** Lines 221-223; [None] is the [KeyError] or [TypeError] of
    [js_data["message_type"]]. *)
Definition dispatch (js : json) (w : State) : option State :=
  match js with
  | JObj d =>
      match dict_get "message_type" d with
      | Some v =>
          if is_state_update v then
            Some (set_trace
                    (trace w ++ map (fun l => EvDataReceive l js) (__event_listener w)) w)
          else Some w
      | None => None
      end
  | _ => None
  end.

(** Line 221 on: [js_data] is whatever the local variable holds now;
    unbound, it raises [UnboundLocalError]. *)
Definition after_parse (js_data : option json) (w : State) : State :=
  match js_data with
  | None => set_task (Leaving true) w
  | Some js =>
      match dispatch js w with
      | Some w' => set_task (InLoop AtDrain js_data) w'
      | None => set_task (Leaving true) w
      end
  end.

(** Lines 198-227: the loop test and the receive part of one iteration.
    Only [TimeoutError] and [CancelledError] are caught inside the loop.
    The record of a close frame is logged without the frame's type. *)
Definition receive_part (r : RecvOutcome) (js_data : option json) (w : State) : State :=
  if negb (_is_running w) then set_task (Leaving false) w
  else
    match r with
    | RTimeout | RCancelled => set_task (InLoop AtDrain js_data) w
    | RRaise => set_task (Leaving true) w
    | RMsg ty data =>
        if is_close ty then
          set_task (Leaving false) (log_debug "Websocket closed : " w)
        else
          match data with
          | Malformed => after_parse js_data w
          | Parsed js =>
              match log_receive js w with
              | Some w' => after_parse (Some js) w'
              | None => set_task (Leaving true) w
              end
          | NotText => set_task (Leaving true) w
          end
    end.

(** Lines 236-249: the inner [while] over the queue.  [oks] tells for each
    [send_json] of the pass whether it returns ([true], also when the list
    is exhausted) or raises.  The result is the events of the pass and the
    queue it leaves. *)
Fixpoint drain (dbg : bool) (q : list dict) (oks : list bool) : list Event * list dict :=
  match q with
  | [] => ([], [])
  | msg :: q' =>
      let logs :=
        if dbg then
          [LogDebug ("Send Json : " +:+ dumps (JObj (dict_set "token" (JStr "*****") msg)))]
        else [] in
      match oks with
      | false :: _ => (logs ++ [LogError "Failed to send Json"], msg :: q')
      | _ =>
          let '(evs, rest) := drain dbg q' (tail oks) in
          (logs ++ EvSent msg :: evs, rest)
      end
  end.

(** Lines 229-254. *)
Definition send_part (oks : list bool) (js_data : option json) (w : State) : State :=
  let '(evs, rest) := drain (debug w) (_msg_to_send w) oks in
  set_task (InLoop AtCheck js_data)
    (set_msg_to_send rest (set_trace (trace w ++ evs) w)).

(** Lines 255-269, entered from [Leaving exc]; [closed] is
    [self._websocket.closed] at line 259. *)
Definition teardown (exc closed : bool) (w : State) : State :=
  let w :=
    if exc then
      set_last_refresh_token_ts (Some (get_ts w - 1200)) (emit LogException w)
    else w in
  let w' :=
    if _websocket w && negb closed then
      match _timer_ping w with
      | Some i => Some (cancel_timer i w)
      | None => None
      end
    else Some w in
  match w' with
  | None => set_task Crashed w
  | Some w =>
      if negb (_stop_running w) then
        let w := log_debug "Try reconnection in 5 secondes" w in
        let w := start_timer_connection_lost w in
        set_task (Scheduled (now w + 5) true) w
      else set_task Finished w
  end.

(** ** The environment *)

Inductive Input : Type :=
| Advance (d : Z)                       (* the clock moves on by [d] seconds *)
| Fire (i : nat) (h : Http)             (* timer [i] expires; [h] answers a refresh *)
| AddListener (l : nat)
| Login (h : Http) (connect_ws : bool)
| SendAction (msg : dict)
| Close
| Begin                                 (* the created task starts to run *)
| Handshake (ok : bool)
| Recv (r : RecvOutcome)
| Drain (oks : list bool)
| Teardown (closed : bool).

Definition is_pending (t : Timer) : bool :=
  match tstate t with
  | Pending => true
  | _ => false
  end.

(** Time does not pass beyond the deadline of a pending timer. *)
Definition may_advance (d : Z) (w : State) : bool :=
  (0 <? d) && forallb (fun t => negb (is_pending t) || (now w + d <=? deadline t)) (timers w).

Definition run_callback (cb : Callback) (h : Http) (w : State) : State :=
  match cb with
  | CbRefresh => refresh_token h w
  | CbPing => send_ping w
  | CbLost => dispatch_connection_lost w
  end.

Definition fire (i : nat) (h : Http) (w : State) : option State :=
  match timers w !! i with
  | Some t =>
      if is_pending t && (deadline t <=? now w) then
        Some (run_callback (callback t) h
                (set_timers (<[i := mkTimer (deadline t) (callback t) Fired]> (timers w)) w))
      else None
  | None => None
  end.

(** One step; [None] when the input cannot happen in this state. *)
Definition step (i : Input) (w : State) : option State :=
  match i with
  | Advance d => if may_advance d w then Some (set_now (now w + d) w) else None
  | Fire k h => fire k h w
  | AddListener l => Some (add_listener l w)
  | Login h c => async_auth h c w
  | SendAction msg => Some (send_action msg w)
  | Close => Some (close w)
  | Begin =>
      match task w with
      | Scheduled t us => if t <=? now w then Some (connect_begin us w) else None
      | _ => None
      end
  | Handshake ok =>
      match task w with
      | Connecting us => Some (connect_handshake ok us w)
      | _ => None
      end
  | Recv r =>
      match task w with
      | InLoop AtCheck js => Some (receive_part r js w)
      | _ => None
      end
  | Drain oks =>
      match task w with
      | InLoop AtDrain js => Some (send_part oks js w)
      | _ => None
      end
  | Teardown closed =>
      match task w with
      | Leaving exc => Some (teardown exc closed w)
      | _ => None
      end
  end.

Fixpoint run (ins : list Input) (w : State) : option State :=
  match ins with
  | [] => Some w
  | i :: ins' =>
      match step i w with
      | Some w' => run ins' w'
      | None => None
      end
  end.

(** [count_lost l tr]: how often listener [l] was told of a lost connection. *)
Definition is_lost (l : nat) (e : Event) : bool :=
  match e with
  | EvLostConnection l' => Nat.eqb l l'
  | _ => false
  end.

Definition count_lost (l : nat) (tr : list Event) : nat :=
  List.length (List.filter (is_lost l) tr).

(** ** The device list: [async_get_devices] and [update_state_device] *)

(** A call that returns or raises. *)
Inductive Result (A : Type) : Type :=
| Raise
| Return (a : A).
Arguments Raise {A}.
Arguments Return {A} a.

(** The answer to one of the two list requests: the request raises, or a
    response arrives with its status code and a body with [status],
    [message] and the list under [data]; the elements of the list are JSON
    objects. *)
Record ListReply : Type := mkListReply {
  lr_http_status : Z;
  lr_status : Z;
  lr_message : string;
  lr_items : list dict
}.

Inductive ListHttp : Type := ListNetError | ListResp (r : ListReply).

Definition list_success (r : ListReply) : bool :=
  (lr_http_status r =? 200) && (lr_status r =? 200)
  && String.eqb (lr_message r) "SUCCESS".

(** Lines 360-393: the devices, or [None]. *)
Definition async_get_thermostats (h : ListHttp) : Result (option (list dict)) :=
  match h with
  | ListNetError => Raise
  | ListResp r => Return (if list_success r then Some (lr_items r) else None)
  end.

(** Lines 395-417: the appliances, or the empty list. *)
Definition async_get_thermostat_info (h : ListHttp) : Result (list dict) :=
  match h with
  | ListNetError => Raise
  | ListResp r => Return (if list_success r then lr_items r else [])
  end.

(** Lines 332-338, one pass of the loop body with
    [appliance_id = str(device["applianceId"])]. *)
Definition add_id (appliance_ids appliance_id : string) : string :=
  if contains appliance_id appliance_ids then appliance_ids
  else
    (if String.eqb appliance_ids EmptyString then appliance_ids
     else appliance_ids +:+ ",") +:+ appliance_id.

(** Lines 330-338; [py_str] is Python's [str], a missing [applianceId]
    raises [KeyError]. *)
Fixpoint collect_ids (py_str : json → string) (appliance_ids : string)
    (devices : list dict) : Result string :=
  match devices with
  | [] => Return appliance_ids
  | device :: r =>
      match dict_get "applianceId" device with
      | Some v => collect_ids py_str (add_id appliance_ids (py_str v)) r
      | None => Raise
      end
  end.

(** Lines 344-346 for one device; [py_eq] is Python's [==]. *)
Fixpoint attach (py_eq : json → json → bool) (device : dict) (appliances : list dict)
    : Result dict :=
  match appliances with
  | [] => Return device
  | appliance :: r =>
      match dict_get "applianceId" appliance, dict_get "applianceId" device with
      | Some x, Some y =>
          attach py_eq
            (if py_eq x y then dict_set "appliance" (JObj appliance) device else device) r
      | _, _ => Raise
      end
  end.

(** Lines 343-346. *)
Fixpoint attach_all (py_eq : json → json → bool) (devices appliances : list dict)
    : Result (list dict) :=
  match devices with
  | [] => Return []
  | device :: r =>
      match attach py_eq device appliances with
      | Return device' =>
          match attach_all py_eq r appliances with
          | Return r' => Return (device' :: r')
          | Raise => Raise
          end
      | Raise => Raise
      end
  end.

(** Lines 324-350; [h1] answers the device request, [h2] the appliance
    request made for a given list of ids. *)
Definition async_get_devices (py_str : json → string) (py_eq : json → json → bool)
    (h1 : ListHttp) (h2 : string → ListHttp) : Result (list dict) :=
  match async_get_thermostats h1 with
  | Raise => Raise
  | Return None => Return []
  | Return (Some devices) =>
      match collect_ids py_str EmptyString devices with
      | Raise => Raise
      | Return appliance_ids =>
          match async_get_thermostat_info (h2 appliance_ids) with
          | Raise => Raise
          | Return appliances => attach_all py_eq devices appliances
          end
      end
  end.

(** [device["macAddress"] == listener.get_mac_address()], the latter a
    string. *)
Definition is_mac (v : json) (mac : string) : bool :=
  match v with
  | JStr s => String.eqb s mac
  | _ => false
  end.

(** Lines 356-358 for one listener: the calls of [state_device_receive]
    made, and whether a missing [macAddress] raised [KeyError]. *)
Fixpoint deliver (mac : string) (l : nat) (devices : list dict)
    : list (nat * dict) * bool :=
  match devices with
  | [] => ([], false)
  | device :: r =>
      match dict_get "macAddress" device with
      | Some v =>
          let '(calls, raised) := deliver mac l r in
          (if is_mac v mac then (l, device) :: calls else calls, raised)
      | None => ([], true)
      end
  end.

(** Lines 355-358. *)
Fixpoint deliver_all (get_mac_address : nat → string) (listeners : list nat)
    (devices : list dict) : list (nat * dict) * bool :=
  match listeners with
  | [] => ([], false)
  | l :: r =>
      let '(calls, raised) := deliver (get_mac_address l) l devices in
      if raised then (calls, true)
      else
        let '(calls', raised') := deliver_all get_mac_address r devices in
        (calls ++ calls', raised')
  end.

(** Lines 352-358.  With [devices] being [None] the inner [for] raises
    [TypeError] as soon as there is a listener. *)
Definition update_state_device (get_mac_address : nat → string) (listeners : list nat)
    (h : ListHttp) : list (nat * dict) * bool :=
  match async_get_thermostats h with
  | Raise => ([], true)
  | Return None =>
      match listeners with
      | [] => ([], false)
      | _ :: _ => ([], true)
      end
  | Return (Some devices) => deliver_all get_mac_address listeners devices
  end.

(** ** The API key: the first lines of [async_auth] *)

(** [s.find(sub, start)] for a [start] that is not negative (it is 0, or
    the result of a [find] plus 5 or 7). *)
Definition py_find (sub s : string) (start : Z) : Z :=
  match String.index (Z.to_nat start) sub s with
  | Some n => Z.of_nat n
  | None => -1
  end.

(** A bound of a slice: negative bounds count from the end, and bounds
    are clipped to the string. *)
Definition py_bound (n i : Z) : Z :=
  if i <? 0 then Z.max 0 (n + i) else Z.min i n.

(** [s[a:b]] *)
Definition py_slice (s : string) (a b : Z) : string :=
  let n := Z.of_nat (String.length s) in
  let lo := py_bound n a in
  let hi := py_bound n b in
  String.substring (Z.to_nat lo) (Z.to_nat (hi - lo)) s.

(** [s.replace(c, e)] for a one-character [c] and the empty string [e]. *)
Fixpoint remove_char (c : ascii) (s : string) : string :=
  match s with
  | EmptyString => EmptyString
  | String x r =>
      if Ascii.eqb x c then remove_char c r else String x (remove_char c r)
  end.

(** The three lines that both extractions share: find the marker, find
    the stop from [skip] characters after it on, cut, remove the quotes. *)
Definition scrape (marker stop : string) (skip : Z) (html_text : string) : string :=
  let index := py_find marker html_text 0 in
  let index2 := py_find stop html_text (index + skip) in
  remove_char dquote (py_slice html_text (index + skip) index2).

(** The text [src=], a double quote, [main.]. *)
Definition main_marker : string := "src=" +:+ String dquote "main.".

(** Lines 63-65. *)
Definition main_js_url (html_text : string) : string :=
  scrape main_marker (String dquote EmptyString) 5 html_text.

(** Lines 71-73. *)
Definition x_api_key (html_text : string) : string :=
  scrape "apiKey:" "," 7 html_text.

(** Lines 58-73; [get] is the text that a GET of a URL returns (a request
    that raises is left out), [key] the field [_x_api_key] before the
    call. *)
Definition discover_api_key (get : string → string) (key : string) : string :=
  let login_url := "https://home.cielowigle.com/" in
  let url := main_js_url (get (login_url +:+ "auth/login")) in
  if String.eqb url EmptyString then key else x_api_key (get (login_url +:+ url)).

Fixpoint has_char (c : ascii) (s : string) : bool :=
  match s with
  | EmptyString => false
  | String x r => Ascii.eqb x c || has_char c r
  end.

(** ** Notions used in the statements *)

(** The [ts] that [send_action] gives a command sent in state [w]. *)
Definition assigned_ts (w : State) : Z :=
  if now w =? _last_ts_msg w then now w + 1 else now w.

(** A logged-in session whose clock reads [t]. *)
Definition session (t : Z) (dbg : bool) : State :=
  set_session_id "sid" (set_access_token "tok" (init t dbg)).

Definition ping_frame (w : State) : dict :=
  [("message", JStr "Ping Connection Reset"); ("token", JStr (_access_token w))].

(** A session whose socket has just been opened: the ping timer is timer 0
    and the task is at the loop test. *)
Definition connected (t : Z) (dbg : bool) : State :=
  connect_handshake true false (session t dbg).

(** The frames a pass has written to the socket, in order. *)
Fixpoint sent_frames (evs : list Event) : list dict :=
  match evs with
  | [] => []
  | EvSent m :: r => m :: sent_frames r
  | _ :: r => sent_frames r
  end.

Definition is_refresh_call (e : Event) : bool :=
  match e with
  | EvRefreshCall => true
  | _ => false
  end.

(** How often [async_refresh_token] has been called. *)
Definition refresh_calls (tr : list Event) : nat :=
  List.length (List.filter is_refresh_call tr).

(** A tick of the refresh timer [e] seconds after the last refresh. *)
Definition at_elapsed (e : Z) : State :=
  set_now (5000 + e) (set_last_refresh_token_ts (Some 5000) (session 5000 false)).

(** Does a debug record of the trace contain [tok]? *)
Definition log_contains (tok : string) (tr : list Event) : bool :=
  existsb (fun e => match e with
                    | LogDebug s => contains tok s
                    | _ => false
                    end) tr.



Definition logged_in : Reply := mkReply 200 200 "SUCCESS" "tok" "ref" "sid".

(** The timer a field holds was created with the callback of that field. *)
Definition has_kind (ts : list Timer) (cb : Callback) (h : option nat) : Prop :=
  ∀ i, h = Some i → ∃ t, ts !! i = Some t ∧ callback t = cb.

Definition kinds (ts : list Timer) (r p l : option nat) : Prop :=
  has_kind ts CbRefresh r ∧ has_kind ts CbPing p ∧ has_kind ts CbLost l.

(** The timer held by [_timer_refresh] is pending. *)
Definition armed (ts : list Timer) (r : option nat) : Prop :=
  ∀ i, r = Some i → ∃ t, ts !! i = Some t ∧ tstate t = Pending.

Definition InvV (ts : list Timer) (r p l : option nat) : Prop :=
  kinds ts r p l ∧ armed ts r.

Definition Inv (w : State) : Prop :=
  InvV (timers w) (_timer_refresh w) (_timer_ping w) (_timer_connection_lost w).

(** The refresh timer is armed: [_timer_refresh] holds a pending timer
    whose callback is [refresh_token]. *)
Definition refresh_armed (w : State) : Prop :=
  ∃ i t, _timer_refresh w = Some i ∧ timers w !! i = Some t
         ∧ callback t = CbRefresh ∧ tstate t = Pending.

(** A timer that has fired or was cancelled. *)
Definition spent (ts : list Timer) (i : nat) : Prop :=
  ∃ t, ts !! i = Some t ∧ is_pending t = false.

(** A session that has logged in, after [ins]. *)
Definition after_login (ins : list Input) : State :=
  default (init 0 false) (run (Login (Resp logged_in) false :: ins) (init 0 false)).

Definition is_connect (e : Event) : bool :=
  match e with
  | EvConnect => true
  | _ => false
  end.

(** How often the task has tried to open a socket. *)
Definition connects (tr : list Event) : nat :=
  List.length (List.filter is_connect tr).

(** The task is in its loop, on its way out of it, or over: it neither
    waits for a reconnection nor opens a socket. *)
Definition halting (t : Task) : bool :=
  match t with
  | InLoop _ _ | Leaving _ | Finished | Crashed => true
  | _ => false
  end.

(** The session has been stopped and has not tried to connect since the
    trace was [tr]. *)
Definition halted (tr : list Event) (w : State) : Prop :=
  _stop_running w = true ∧ _is_running w = false
  ∧ halting (task w) = true ∧ connects (trace w) = connects tr.

(** A login that asks for a new connection task, the one way to connect
    a stopped session again. *)
Definition spawns (i : Input) : bool :=
  match i with
  | Login _ true => true
  | _ => false
  end.

(** The inputs that finish the iteration in which [close] was called and
    reach the next loop test. *)
Definition to_next_test (ph : Phase) (oks : list bool) (r : RecvOutcome) : list Input :=
  match ph with
  | AtCheck => [Recv r]
  | AtDrain => [Drain oks; Recv r]
  end.

(** The input at which a connection task ends. *)
Definition ends_task (i : Input) : bool :=
  match i with
  | Teardown _ => true
  | _ => false
  end.

(** A watchdog that can still fire. *)
Definition is_watchdog (t : Timer) : bool :=
  match callback t with
  | CbLost => is_pending t
  | _ => false
  end.

(** No watchdog is pending. *)
Definition no_watchdog (ts : list Timer) : bool :=
  forallb (λ t, negb (is_watchdog t)) ts.

(** Every watchdog that can still fire is the one held by
    [_timer_connection_lost], and is due after second [n]. *)
Definition guarded (n : Z) (ts : list Timer) (l : option nat) : Prop :=
  ∀ j t, ts !! j = Some t → is_watchdog t = true → l = Some j ∧ n < deadline t.

(** An outage of eighteen seconds.  Two listeners are registered and the
    session logs in and connects at second 0.  At second 3 [receive]
    raises: the task leaves the loop, starts a watchdog (timer 2, due at
    13) and sleeps five seconds.  The attempts at seconds 8 and 14 fail one
    second later, and each failure starts a watchdog of its own (timer 3,
    due at 19, and timer 4, due at 25) in the same field.  Timers 2 and 3
    expire; the attempt at second 20 succeeds at 21 and cancels timer 4. *)
Definition outage : list Input :=
  [AddListener 7; AddListener 8;
   Login (Resp logged_in) true; Begin; Handshake true;
   Advance 3; Recv RRaise; Teardown true;
   Advance 5; Begin; Advance 1; Handshake false; Teardown true;
   Advance 4; Fire 2 NetError;
   Advance 1; Begin; Advance 1; Handshake false; Teardown true;
   Advance 4; Fire 3 NetError;
   Advance 1; Begin; Advance 1; Handshake true].

(** ** Notions used in the further properties *)

(** The calls of [data_receive] in a trace: listener and payload. *)
Fixpoint data_calls (tr : list Event) : list (nat * json) :=
  match tr with
  | [] => []
  | EvDataReceive l js :: r => (l, js) :: data_calls r
  | _ :: r => data_calls r
  end.

(** Is [js] an object with a [message_type]? *)
Definition has_message_type (js : json) : bool :=
  match js with
  | JObj d => match dict_get "message_type" d with Some _ => true | None => false end
  | _ => false
  end.

(** The refresh request did not return new tokens. *)
Definition refresh_failed (h : Http) : bool :=
  match h with
  | NetError => true
  | Resp r => negb ((http_status r =? 200) && rep_success r)
  end.


(** Does the device carry this MAC address? *)
Definition has_mac (mac : string) (device : dict) : bool :=
  match dict_get "macAddress" device with
  | Some v => is_mac v mac
  | None => false
  end.

(** For the examples: Python's [str] and [==] on the ids an account
    has, integers or strings; the theorems hold for any [str] and [==]. *)
Definition id_text (v : json) : string :=
  match v with
  | JInt n => pretty n
  | JStr s => s
  | _ => EmptyString
  end.

Definition same_id (x y : json) : bool :=
  match x, y with
  | JInt a, JInt b => a =? b
  | JStr a, JStr b => String.eqb a b
  | _, _ => false
  end.

(** * Properties *)

Example dumps_example :
  dumps (JObj [("a", JInt 12); ("b", JStr "x"); ("c", JList [JBool true; JNull])])
  = String "{" (quoted "a" +:+ ": 12, " +:+ quoted "b" +:+ ": " +:+ quoted "x" +:+ ", "
                +:+ quoted "c" +:+ ": [true, null]}").
Proof. vm_compute. reflexivity. Qed.

(** ** Dictionaries *)

Lemma dict_get_set_eq (k : string) (v : json) (d : dict) :
  dict_get k (dict_set k v d) = Some v.
Proof.
  induction d as [|[k' v'] r IH]; simpl.
  - by rewrite String.eqb_refl.
  - destruct (String.eqb_spec k' k) as [->|Hne]; simpl.
    + by rewrite String.eqb_refl.
    + destruct (String.eqb_spec k' k); [contradiction | exact IH].
Qed.

Lemma dict_get_set_ne (k k' : string) (v : json) (d : dict) :
  k ≠ k' → dict_get k' (dict_set k v d) = dict_get k' d.
Proof.
  intros Hne. induction d as [|[k0 v0] r IH]; simpl.
  - destruct (String.eqb_spec k k'); [contradiction | reflexivity].
  - destruct (String.eqb_spec k0 k) as [->|Hk]; simpl.
    + destruct (String.eqb_spec k k'); [contradiction | reflexivity].
    + destruct (String.eqb_spec k0 k'); [reflexivity | exact IH].
Qed.

(** ** Outbound commands: the fields injected by [send_action] *)

Lemma send_action_queue (msg : dict) (w : State) :
  ∃ m, _msg_to_send (send_action msg w) = _msg_to_send w ++ [m]
       ∧ dict_get "token" m = Some (JStr (_access_token w))
       ∧ dict_get "mid" m = Some (JStr (_session_id w))
       ∧ dict_get "ts" m = Some (JInt (assigned_ts w)).
Proof.
  unfold send_action, assigned_ts, get_ts.
  destruct (now w =? _last_ts_msg w); simpl; eexists; (split; [reflexivity|]).
  - rewrite dict_get_set_eq. repeat (rewrite dict_get_set_ne by discriminate).
    rewrite dict_get_set_eq. rewrite dict_get_set_ne by discriminate.
    rewrite dict_get_set_ne by discriminate. by rewrite dict_get_set_eq.
  - rewrite dict_get_set_eq. repeat (rewrite dict_get_set_ne by discriminate).
    rewrite dict_get_set_eq. rewrite dict_get_set_ne by discriminate.
    by rewrite dict_get_set_eq.
Qed.

Lemma send_action_last_ts (msg : dict) (w : State) :
  _last_ts_msg (send_action msg w) = assigned_ts w
  ∧ now (send_action msg w) = now w.
Proof.
  unfold send_action, assigned_ts, get_ts.
  by destruct (now w =? _last_ts_msg w).
Qed.

(** What the comparison at line 278 does guarantee: a command never gets
    the [ts] of the command sent just before it. *)
Lemma send_action_ts_differs (msg : dict) (w : State) :
  assigned_ts w ≠ _last_ts_msg w.
Proof.
  unfold assigned_ts. destruct (Z.eqb_spec (now w) (_last_ts_msg w)); lia.
Qed.

(** Three commands within one second: the third one falls back. *)
Lemma send_action_third_falls_back (a b c : dict) (w : State) :
  now w ≠ _last_ts_msg w →
  let w1 := send_action a w in
  let w2 := send_action b w1 in
  assigned_ts w = now w ∧ assigned_ts w1 = now w + 1 ∧ assigned_ts w2 = now w.
Proof.
  intros Hne w1 w2.
  destruct (send_action_last_ts a w) as [Hl1 Hn1].
  destruct (send_action_last_ts b w1) as [Hl2 Hn2].
  assert (H0 : assigned_ts w = now w).
  { unfold assigned_ts. destruct (Z.eqb_spec (now w) (_last_ts_msg w)); [contradiction | done]. }
  assert (H1 : assigned_ts w1 = now w + 1).
  { unfold assigned_ts. fold w1 in Hl1, Hn1. rewrite Hl1, Hn1, H0, Z.eqb_refl. done. }
  repeat split; try done.
  unfold assigned_ts. fold w1 in Hl1, Hn1. fold w2 in Hl2, Hn2.
  rewrite Hl2, Hn2, Hn1, H1.
  destruct (Z.eqb_spec (now w) (now w + 1)); [lia | done].
Qed.

(** C1, evaluated on the code: three commands passed to [send_action]
    while the clock reads 1000 get the [ts] values 1000, 1001 and again
    1000, so the values are not strictly increasing and the third command,
    sent in the same second as the second, does not get its [ts] plus one. *)
Theorem send_action_ts_same_second :
  let cmd := [("action", JStr "actionControl")] in
  let w := send_action cmd (send_action cmd (send_action cmd (session 1000 false))) in
  map (dict_get "ts") (_msg_to_send w)
  = [Some (JInt 1000); Some (JInt 1001); Some (JInt 1000)].
Proof. vm_compute. reflexivity. Qed.

Lemma send_ping_queue (w : State) :
  _msg_to_send (send_ping w) = _msg_to_send w ++ [ping_frame w].
Proof. unfold send_ping, log_debug, start_timer_ping. simpl. by destruct (debug w). Qed.

(** C7, counterexample: 588 seconds after the connection the ping timer
    expires, [send_ping] queues its frame and the next pass of the loop
    writes it to the socket; that frame has no [mid] and no [ts]. *)
Lemma ping_frame_without_mid_ts :
  ∃ w m, run [Advance 588; Fire 0 NetError; Recv RTimeout; Drain []] (connected 1000 false) = Some w
         ∧ last (trace w) = Some (EvSent m)
         ∧ dict_get "token" m = Some (JStr "tok")
         ∧ dict_get "mid" m = None
         ∧ dict_get "ts" m = None.
Proof. eexists _, _. vm_compute. repeat split. Qed.

(** C7, amended: a command queued by [send_action] carries [token], the
    access token at the time of the call, [mid], the session id, and [ts],
    the clock's second or that second plus one; the keep-alive queued by
    [send_ping] carries [message] and [token] only. *)
Theorem outbound_frame_fields (msg : dict) (w : State) :
  (∃ m, _msg_to_send (send_action msg w) = _msg_to_send w ++ [m]
        ∧ dict_get "token" m = Some (JStr (_access_token w))
        ∧ dict_get "mid" m = Some (JStr (_session_id w))
        ∧ (dict_get "ts" m = Some (JInt (get_ts w))
           ∨ dict_get "ts" m = Some (JInt (get_ts w + 1))))
  ∧ _msg_to_send (send_ping w)
    = _msg_to_send w
      ++ [[("message", JStr "Ping Connection Reset"); ("token", JStr (_access_token w))]].
Proof.
  split; [|apply send_ping_queue].
  destruct (send_action_queue msg w) as (m & Hq & Ht & Hm & Hts).
  exists m. repeat split; try done.
  unfold assigned_ts, get_ts in *. destruct (now w =? _last_ts_msg w); auto.
Qed.

(** ** The outbound queue *)







(** The example of the specification, through the loop: A, B and C are
    queued, the send of B fails in the first pass, the second pass sends B
    and C. *)
Example drain_A_B_C :
  let A := [("n", JInt 1)] in
  let B := [("n", JInt 2)] in
  let C := [("n", JInt 3)] in
  let w := send_json C (send_json B (send_json A (connected 1000 false))) in
  option_map (fun w => (sent_frames (trace w), _msg_to_send w))
    (run [Recv RTimeout; Drain [true; false]] w) = Some ([A], [B; C])
  ∧ option_map (fun w => (sent_frames (trace w), _msg_to_send w))
      (run [Recv RTimeout; Drain [true; false]; Recv RTimeout; Drain []] w)
    = Some ([A; B; C], []).
Proof. vm_compute. done. Qed.

(** ** The refresh timer's gate *)

Lemma refresh_calls_app (a b : list Event) :
  refresh_calls (a ++ b) = (refresh_calls a + refresh_calls b)%nat.
Proof. unfold refresh_calls. by rewrite List.filter_app, length_app. Qed.

Lemma refresh_calls_log_debug (s : string) (w : State) :
  refresh_calls (trace (log_debug s w)) = refresh_calls (trace w).
Proof.
  unfold log_debug. destruct (debug w); [|done].
  unfold emit. simpl. rewrite refresh_calls_app.
  change (refresh_calls [LogDebug s]) with 0%nat. apply Nat.add_0_r.
Qed.

Lemma async_refresh_token_calls (h : Http) (w : State) :
  refresh_calls (trace (async_refresh_token h w)) = refresh_calls (trace w).
Proof.
  unfold async_refresh_token. destruct h as [|r].
  - apply refresh_calls_log_debug.
  - destruct (_ && _).
    + rewrite refresh_calls_log_debug. simpl. apply refresh_calls_log_debug.
    + apply refresh_calls_log_debug.
Qed.

Lemma refresh_token_calls (h : Http) (w : State) (l : Z) :
  _last_refresh_token_ts w = Some l →
  refresh_calls (trace (refresh_token h w))
  = (refresh_calls (trace w) + (if (1200 <? now w - l)%Z then 1 else 0))%nat.
Proof.
  intros Hl. unfold refresh_token, start_timer_refreshtoken, get_ts. simpl.
  rewrite Hl. destruct (1200 <? now w - l).
  - rewrite async_refresh_token_calls. unfold emit. simpl.
    by rewrite refresh_calls_app.
  - simpl. by rewrite Nat.add_0_r.
Qed.

(** C4, counterexample: on a tick exactly 1200 seconds after the last
    refresh, elapsed is at least 1200 and no refresh call is made. *)
Lemma refresh_gate_at_1200 :
  let w := at_elapsed 1200 in
  _last_refresh_token_ts w = Some 5000
  ∧ 1200 ≤ get_ts w - 5000
  ∧ refresh_calls (trace (refresh_token NetError w)) = refresh_calls (trace w).
Proof.
  split; [reflexivity|]. split; [|reflexivity].
  vm_compute. discriminate.
Qed.

(** C4, amended: a tick of the refresh timer calls [async_refresh_token]
    once when more than 1200 seconds have passed since
    [_last_refresh_token_ts], and not at all otherwise. *)
Theorem refresh_gate (h : Http) (w : State) (l : Z) :
  _last_refresh_token_ts w = Some l →
  (1200 < get_ts w - l →
   refresh_calls (trace (refresh_token h w)) = S (refresh_calls (trace w)))
  ∧ (get_ts w - l ≤ 1200 →
     refresh_calls (trace (refresh_token h w)) = refresh_calls (trace w)).
Proof.
  intros Hl. rewrite (refresh_token_calls h w l Hl). unfold get_ts.
  destruct (Z.ltb_spec 1200 (now w - l)); split; intros; lia.
Qed.

Lemma refresh_gate_witness :
  (refresh_calls (trace (refresh_token NetError (at_elapsed 1201)))
   = S (refresh_calls (trace (at_elapsed 1201))))
  ∧ (refresh_calls (trace (refresh_token NetError (at_elapsed 1199)))
     = refresh_calls (trace (at_elapsed 1199))).
Proof.
  split.
  - apply (refresh_gate NetError (at_elapsed 1201) 5000); [reflexivity | vm_compute; reflexivity].
  - apply (refresh_gate NetError (at_elapsed 1199) 5000); [reflexivity | vm_compute; discriminate].
Defined.

(** ** Redaction in the log *)


(** The same for a command: only the top-level [token] is replaced, so a
    command that nests the token is logged with it, and a command that
    does not is logged without it. *)
Example send_log_shows_nested_token :
  let w0 := set_access_token "SECRETVALUE" (connected 1000 true) in
  (∃ w, run [Recv RTimeout; Drain []]
          (send_action [("actions", JObj [("auth", JStr "SECRETVALUE")])] w0) = Some w
        ∧ log_contains "SECRETVALUE" (trace w) = true)
  ∧ (∃ w, run [Recv RTimeout; Drain []]
            (send_action [("power", JStr "on")] w0) = Some w
          ∧ log_contains "SECRETVALUE" (trace w) = false).
Proof. split; eexists; vm_compute; repeat split. Qed.


(** ** Invariants of the step function *)

(** The invariants below are proved on the goal
    [match step i w with Some w' => P w w' | None => True end], by case
    analysis on the tests the methods make, innermost first. *)
Ltac unfold_ops :=
  unfold fire, run_callback, refresh_token, async_refresh_token, send_ping,
    dispatch_connection_lost, async_auth, send_action, send_json, close,
    add_listener, connect_begin, connect_handshake, receive_part, after_parse,
    dispatch, log_receive, send_part, teardown, start_timer_refreshtoken,
    start_timer_ping, start_timer_connection_lost, stop_timer_connection_lost,
    cancel_timer, start_timer, log_debug, emit, get_ts.

Ltac break_match :=
  match goal with
  | |- context [match ?x with _ => _ end] =>
      lazymatch x with
      | context [match _ with _ => _ end] => fail
      | _ => destruct x eqn:?
      end
  end.

Ltac by_cases := unfold_ops; repeat (simpl; break_match); try exact I.

Lemma may_advance_pos (d : Z) (w : State) : may_advance d w = true → 0 < d.
Proof. unfold may_advance. intros [H _]%andb_prop. lia. Qed.

(** From the goal form of an invariant to its use on a step. *)
Lemma on_step (P : State → Prop) (i : Input) (w w' : State) :
  match step i w with Some w' => P w' | None => True end →
  step i w = Some w' → P w'.
Proof. intros H Hs. by rewrite Hs in H. Qed.

(** ** The timestamp of the last refresh *)






(** ** The timers and the fields that hold them *)

Lemma has_kind_app (ts : list Timer) cb h t :
  has_kind ts cb h → has_kind (ts ++ [t]) cb h.
Proof.
  intros H i Hi. destruct (H i Hi) as (t' & Ht & Hc). exists t'. split; [|done].
  rewrite lookup_app_l; [done|]. by eapply lookup_lt_Some.
Qed.

Lemma lookup_new (ts : list Timer) (t : Timer) :
  (ts ++ [t]) !! List.length ts = Some t.
Proof. rewrite lookup_app_r by lia. by rewrite Nat.sub_diag. Qed.

Lemma has_kind_new (ts : list Timer) cb d st :
  has_kind (ts ++ [mkTimer d cb st]) cb (Some (List.length ts)).
Proof.
  intros i [= <-]. exists (mkTimer d cb st). split; [apply lookup_new | done].
Qed.

Lemma has_kind_mark (ts : list Timer) cb h k t t' :
  ts !! k = Some t → callback t' = callback t → has_kind ts cb h →
  has_kind (<[k := t']> ts) cb h.
Proof.
  intros Hk Hcb H i Hi. destruct (H i Hi) as (t0 & Ht & Hc).
  destruct (decide (k = i)) as [->|Hne].
  - exists t'. split; [apply list_lookup_insert_eq; by eapply lookup_lt_Some|].
    congruence.
  - exists t0. by rewrite list_lookup_insert_ne.
Qed.

Lemma armed_app (ts : list Timer) r t : armed ts r → armed (ts ++ [t]) r.
Proof.
  intros H i Hi. destruct (H i Hi) as (t' & Ht & Hc). exists t'. split; [|done].
  rewrite lookup_app_l; [done|]. by eapply lookup_lt_Some.
Qed.

Lemma InvV_kinds ts r p l : InvV ts r p l → kinds ts r p l.
Proof. by intros [? ?]. Qed.

Lemma kinds_mark ts r p l k t t' :
  ts !! k = Some t → callback t' = callback t → kinds ts r p l →
  kinds (<[k := t']> ts) r p l.
Proof. intros Hk Hcb (Hr & Hp & Hl). repeat split; by eapply has_kind_mark. Qed.

(** Starting the refresh timer arms the field whatever it held. *)
Lemma InvV_alloc_refresh ts r p l d :
  kinds ts r p l →
  InvV (ts ++ [mkTimer d CbRefresh Pending]) (Some (List.length ts)) p l.
Proof.
  intros (Hr & Hp & Hl). split; [split; [|split]|].
  - apply has_kind_new.
  - by apply has_kind_app.
  - by apply has_kind_app.
  - intros i [= <-]. exists (mkTimer d CbRefresh Pending).
    split; [apply lookup_new | done].
Qed.

Lemma InvV_alloc_ping ts r p l d :
  InvV ts r p l → InvV (ts ++ [mkTimer d CbPing Pending]) r (Some (List.length ts)) l.
Proof.
  intros [(Hr & Hp & Hl) Ha]. split; [split; [|split]|].
  - by apply has_kind_app.
  - apply has_kind_new.
  - by apply has_kind_app.
  - by apply armed_app.
Qed.

Lemma InvV_alloc_lost ts r p l d :
  InvV ts r p l → InvV (ts ++ [mkTimer d CbLost Pending]) r p (Some (List.length ts)).
Proof.
  intros [(Hr & Hp & Hl) Ha]. split; [split; [|split]|].
  - by apply has_kind_app.
  - by apply has_kind_app.
  - apply has_kind_new.
  - by apply armed_app.
Qed.

(** Cancelling or firing a timer that is no refresh timer leaves the
    refresh timer as it is. *)
Lemma InvV_mark ts r p l k t t' :
  ts !! k = Some t → callback t' = callback t → callback t ≠ CbRefresh →
  InvV ts r p l → InvV (<[k := t']> ts) r p l.
Proof.
  intros Hk Hcb Hne [Hkinds Ha]. split; [by eapply kinds_mark|].
  intros i Hi. destruct (Ha i Hi) as (t0 & Ht & Hs).
  destruct Hkinds as (Hr & _). destruct (Hr i Hi) as (t1 & Ht1 & Hc).
  assert (k ≠ i) by (intros ->; congruence).
  exists t0. by rewrite list_lookup_insert_ne.
Qed.

Lemma InvV_ping_kind ts r p l k t :
  InvV ts r p l → p = Some k → ts !! k = Some t → callback t ≠ CbRefresh.
Proof.
  intros [(_ & Hp & _) _] Hk Ht. destruct (Hp k Hk) as (t' & Ht' & Hc). congruence.
Qed.

Lemma InvV_lost_kind ts r p l k t :
  InvV ts r p l → l = Some k → ts !! k = Some t → callback t ≠ CbRefresh.
Proof.
  intros [(_ & _ & Hl) _] Hk Ht. destruct (Hl k Hk) as (t' & Ht' & Hc). congruence.
Qed.

Ltac not_refresh :=
  first
    [ congruence
    | eapply InvV_ping_kind; [eassumption | first [eassumption | reflexivity] | eassumption]
    | eapply InvV_lost_kind; [eassumption | first [eassumption | reflexivity] | eassumption] ].

Ltac norm_handles :=
  repeat match goal with
  | H : _timer_ping _ = _ |- _ => progress rewrite H
  | H : _timer_connection_lost _ = _ |- _ => progress rewrite H
  | H : _timer_refresh _ = _ |- _ => progress rewrite H
  end.

Ltac inv_solve :=
  norm_handles;
  repeat first
    [ eassumption
    | eapply InvV_alloc_ping
    | eapply InvV_alloc_lost
    | eapply InvV_alloc_refresh
    | eapply InvV_mark; [eassumption | simpl; congruence | not_refresh | ]
    | eapply kinds_mark; [eassumption | simpl; congruence | ]
    | apply InvV_kinds ].

Lemma Inv_init (t : Z) (dbg : bool) : Inv (init t dbg).
Proof. repeat split; intros i Hi; discriminate. Qed.

Lemma Inv_step_all (i : Input) (w : State) :
  Inv w → match step i w with Some w' => Inv w' | None => True end.
Proof.
  unfold Inv. intros HI.
  destruct i; unfold step.
  all: by_cases.
  all: simpl; try assumption.
  all: inv_solve.
Qed.

Lemma refresh_held_step_all (i : Input) (w : State) :
  is_Some (_timer_refresh w) →
  match step i w with Some w' => is_Some (_timer_refresh w') | None => True end.
Proof.
  intros H. destruct i; unfold step.
  all: by_cases.
  all: simpl; eauto.
Qed.

Lemma Inv_run (ins : list Input) (w w' : State) :
  run ins w = Some w' → Inv w → Inv w'.
Proof.
  revert w. induction ins as [|i ins IH]; intros w Hr HI; simpl in Hr.
  - by simplify_eq.
  - destruct (step i w) as [w1|] eqn:Hs; [|done].
    apply (IH w1 Hr). exact (on_step Inv i w w1 (Inv_step_all i w HI) Hs).
Qed.

Lemma refresh_held_run (ins : list Input) (w w' : State) :
  run ins w = Some w' → is_Some (_timer_refresh w) → is_Some (_timer_refresh w').
Proof.
  revert w. induction ins as [|i ins IH]; intros w Hr HI; simpl in Hr.
  - by simplify_eq.
  - destruct (step i w) as [w1|] eqn:Hs; [|done].
    apply (IH w1 Hr).
    exact (on_step (λ w', is_Some (_timer_refresh w')) i w w1
             (refresh_held_step_all i w HI) Hs).
Qed.

Lemma refresh_armed_of_Inv (w : State) :
  Inv w → is_Some (_timer_refresh w) → refresh_armed w.
Proof.
  intros [(Hr & _) Ha] [i Hi].
  destruct (Hr i Hi) as (t & Ht & Hc). destruct (Ha i Hi) as (t' & Ht' & Hs).
  exists i, t. repeat split; try done. congruence.
Qed.

(** [refresh_token] starts the next timer before anything else, whatever
    the state. *)
Lemma refresh_token_timer (h : Http) (w : State) :
  _timer_refresh (refresh_token h w) = Some (List.length (timers w))
  ∧ timers (refresh_token h w)
    = timers w ++ [mkTimer (now w + 60) CbRefresh Pending].
Proof. by_cases; simpl; done. Qed.

(** A due refresh timer can fire, and firing it arms the next one, 60
    seconds later. *)
Lemma fire_refresh (i : nat) (h : Http) (w : State) (t : Timer) :
  timers w !! i = Some t → callback t = CbRefresh → tstate t = Pending →
  deadline t ≤ now w →
  ∃ w', step (Fire i h) w = Some w'
        ∧ _timer_refresh w' = Some (List.length (timers w))
        ∧ timers w' !! List.length (timers w)
          = Some (mkTimer (now w + 60) CbRefresh Pending).
Proof.
  intros Ht Hc Hs Hd. unfold step, fire. rewrite Ht.
  unfold is_pending. rewrite Hs, Hc.
  destruct (Z.leb_spec (deadline t) (now w)); [|lia]. simpl.
  eexists. split; [reflexivity|].
  destruct (refresh_token_timer h
              (set_timers (<[i := mkTimer (deadline t) CbRefresh Fired]> (timers w)) w))
    as [H1 H2].
  rewrite H1, H2. simpl. rewrite length_insert. split; [done|].
  rewrite <- (length_insert (timers w) i (mkTimer (deadline t) CbRefresh Fired)).
  apply lookup_new.
Qed.

(** C10: in a session whose refresh timer has been started, [close]
    touches neither the timers nor [_timer_refresh], and after [close],
    whatever happens next, the refresh timer is armed; when it is due it
    fires, whatever the flags are, and its callback has armed the next one
    at the clock's second plus 60. *)
Theorem refresh_timer_survives_close (t0 : Z) (dbg : bool) (ins0 ins : list Input)
    (w w' : State) :
  run ins0 (init t0 dbg) = Some w →
  is_Some (_timer_refresh w) →
  run (Close :: ins) w = Some w' →
  timers (close w) = timers w
  ∧ _timer_refresh (close w) = _timer_refresh w
  ∧ ∃ i t, _timer_refresh w' = Some i ∧ timers w' !! i = Some t
           ∧ callback t = CbRefresh ∧ tstate t = Pending
           ∧ ∀ h, deadline t ≤ now w' →
                  ∃ w'', step (Fire i h) w' = Some w''
                         ∧ _timer_refresh w'' = Some (List.length (timers w'))
                         ∧ timers w'' !! List.length (timers w')
                           = Some (mkTimer (now w' + 60) CbRefresh Pending).
Proof.
  intros Hreach Hheld Hrun.
  split; [reflexivity|]. split; [reflexivity|].
  assert (HI : Inv w) by (eapply Inv_run; [exact Hreach | apply Inv_init]).
  assert (HI' : Inv w') by (eapply Inv_run; [exact Hrun | exact HI]).
  assert (Hheld' : is_Some (_timer_refresh w')) by (eapply refresh_held_run; eauto).
  destruct (refresh_armed_of_Inv w' HI' Hheld') as (i & t & Hi & Ht & Hc & Hs).
  exists i, t. repeat split; try done.
  intros h Hd. by apply (fire_refresh i h w' t).
Qed.

Lemma refresh_timer_survives_close_witness :
  ∃ i t, _timer_refresh (after_login [Close; Advance 60]) = Some i
         ∧ timers (after_login [Close; Advance 60]) !! i = Some t
         ∧ callback t = CbRefresh ∧ tstate t = Pending.
Proof.
  destruct (refresh_timer_survives_close 0 false [Login (Resp logged_in) false]
              [Advance 60] (after_login []) (after_login [Close; Advance 60]))
    as (_ & _ & i & t & Hi & Ht & Hc & Hs & _).
  - vm_compute. reflexivity.
  - vm_compute. eauto.
  - vm_compute. reflexivity.
  - exists i, t. auto.
Defined.

(** ** Stopping the session *)

Lemma connects_app (a b : list Event) :
  connects (a ++ b) = (connects a + connects b)%nat.
Proof. unfold connects. by rewrite List.filter_app, length_app. Qed.

Lemma connects_map_lost (ls : list nat) : connects (map EvLostConnection ls) = 0%nat.
Proof. induction ls; [done | exact IHls]. Qed.

Lemma connects_map_data (js : json) (ls : list nat) :
  connects (map (λ l, EvDataReceive l js) ls) = 0%nat.
Proof. induction ls; [done | exact IHls]. Qed.

Lemma connects_drain (dbg : bool) (q : list dict) (oks : list bool) :
  connects (drain dbg q oks).1 = 0%nat.
Proof.
  unfold connects. revert oks. induction q as [|m q IH]; intros oks; [done|].
  simpl. destruct oks as [|[] oks]; simpl.
  - specialize (IH []). destruct (drain dbg q []) as [evs r].
    by destruct dbg.
  - specialize (IH oks). destruct (drain dbg q oks) as [evs r].
    by destruct dbg.
  - by destruct dbg.
Qed.

Ltac use_drain :=
  match goal with
  | H : drain ?a ?b ?c = (_, _) |- _ =>
      let Hd := fresh "Hd" in
      pose proof (connects_drain a b c) as Hd; rewrite H in Hd; simpl in Hd
  end.

Ltac count_connects :=
  repeat rewrite connects_app;
  rewrite ?connects_map_lost, ?connects_map_data;
  try use_drain;
  repeat match goal with H : connects _ = _ |- _ => rewrite H end;
  unfold connects; simpl; try lia.

Lemma halted_step_all (tr : list Event) (i : Input) (w : State) :
  spawns i = false → halted tr w →
  match step i w with Some w' => halted tr w' | None => True end.
Proof.
  intros Hsp (Hs & Hr & Ht & Hc).
  destruct i as [d|k h|l|h c|msg| | |ok|r|oks|closed]; unfold step.
  4: destruct c; [discriminate Hsp|].
  all: by_cases.
  all: try (simpl in Ht; discriminate Ht).
  all: try match goal with
           | H : negb (_stop_running _) = true |- _ => rewrite Hs in H; discriminate H
           | H : negb (_is_running _) = false |- _ => rewrite Hr in H; discriminate H
           end.
  all: unfold halted; simpl.
  all: try congruence.
  all: repeat split; try assumption; try reflexivity; try congruence.
  all: count_connects.
Qed.

Lemma halted_run (tr : list Event) (ins : list Input) (w w' : State) :
  forallb (λ i, negb (spawns i)) ins = true →
  run ins w = Some w' → halted tr w → halted tr w'.
Proof.
  revert w. induction ins as [|i ins IH]; intros w Hsp Hr Hh; simpl in Hr.
  - by simplify_eq.
  - simpl in Hsp. apply andb_prop in Hsp as [Hi Hsp].
    destruct (step i w) as [w1|] eqn:Hs; [|done].
    apply (IH w1 Hsp Hr).
    apply (on_step (halted tr) i w w1); [|exact Hs].
    apply halted_step_all; [|exact Hh]. by destruct (spawns i).
Qed.

(** With [_is_running] false the loop test sends the task out of the
    loop, whatever [receive] would have returned. *)
Lemma receive_part_stopped (r : RecvOutcome) (js : option json) (w : State) :
  _is_running w = false → receive_part r js w = set_task (Leaving false) w.
Proof. intros H. unfold receive_part. by rewrite H. Qed.

(** The send part finishes the iteration and leaves the flags alone. *)
Lemma send_part_flags (oks : list bool) (js : option json) (w : State) :
  task (send_part oks js w) = InLoop AtCheck js
  ∧ _is_running (send_part oks js w) = _is_running w
  ∧ _stop_running (send_part oks js w) = _stop_running w.
Proof. unfold send_part. by destruct (drain _ _ _). Qed.

(** With [_stop_running] set the end of the task schedules nothing. *)
Lemma teardown_stopped (exc closed : bool) (w : State) :
  _stop_running w = true →
  task (teardown exc closed w) = Finished ∨ task (teardown exc closed w) = Crashed.
Proof.
  intros Hs. by_cases; simpl; auto.
  all: match goal with
       | H : negb (_stop_running _) = true |- _ =>
           simpl in H; rewrite Hs in H; discriminate H
       end.
Qed.

(** C8: [close] called while the task is in its loop sets
    [_stop_running] and clears [_is_running]; the iteration under way is
    finished, the next loop test leaves the loop without an exception, and
    the end of the task schedules no reconnection; from [close] on, unless
    a new login creates a new task, the task never waits for a
    reconnection and never opens a socket again. *)
Theorem close_stops_loop (w : State) (ph : Phase) (js : option json) :
  task w = InLoop ph js →
  _stop_running (close w) = true
  ∧ _is_running (close w) = false
  ∧ (∀ oks r, ∃ w1, run (to_next_test ph oks r) (close w) = Some w1
               ∧ task w1 = Leaving false
               ∧ ∀ closed, ∃ w2, step (Teardown closed) w1 = Some w2
                                 ∧ (task w2 = Finished ∨ task w2 = Crashed))
  ∧ (∀ ins w', forallb (λ i, negb (spawns i)) ins = true →
               run ins (close w) = Some w' →
               halting (task w') = true
               ∧ connects (trace w') = connects (trace w)).
Proof.
  intros Ht. split; [reflexivity|]. split; [reflexivity|]. split.
  - intros oks r.
    assert (Hexit : ∀ w0, _stop_running w0 = true → _is_running w0 = false →
                          task w0 = InLoop AtCheck js →
              ∃ w1, step (Recv r) w0 = Some w1 ∧ task w1 = Leaving false
                    ∧ ∀ closed, ∃ w2, step (Teardown closed) w1 = Some w2
                                      ∧ (task w2 = Finished ∨ task w2 = Crashed)).
    { intros w0 Hs Hr Ht0. exists (set_task (Leaving false) w0).
      split; [|split; [reflexivity|]].
      - unfold step. rewrite Ht0. by rewrite receive_part_stopped.
      - intros closed. eexists. split; [reflexivity|].
        by apply teardown_stopped. }
    destruct ph; cbn [to_next_test run].
    + destruct (Hexit (close w)) as (w1 & Hs1 & H1); try done.
      exists w1. by rewrite Hs1.
    + assert (Hd : step (Drain oks) (close w) = Some (send_part oks js (close w))).
      { unfold step. simpl. by rewrite Ht. }
      rewrite Hd.
      destruct (send_part_flags oks js (close w)) as (Hta & Hru & Hst).
      destruct (Hexit (send_part oks js (close w))) as (w1 & Hs1 & H1).
      * by rewrite Hst.
      * by rewrite Hru.
      * exact Hta.
      * exists w1. by rewrite Hs1.
  - intros ins w' Hsp Hrun.
    assert (Hh : halted (trace w) (close w)).
    { repeat split. simpl. by rewrite Ht. }
    destruct (halted_run (trace w) ins (close w) w' Hsp Hrun Hh) as (_ & _ & H1 & H2).
    by split.
Qed.

Lemma close_stops_loop_witness :
  ∃ w1, run [Recv (RMsg TEXT Malformed)] (close (connected 1000 false)) = Some w1
        ∧ task w1 = Leaving false.
Proof.
  destruct (close_stops_loop (connected 1000 false) AtCheck None) as (_ & _ & H & _).
  - vm_compute. reflexivity.
  - destruct (H [] (RMsg TEXT Malformed)) as (w1 & H1 & H2 & _).
    exists w1. split; [exact H1 | exact H2].
Defined.

(** ** The connection-lost watchdog *)

(** C2, counterexample: in the outage [outage], one episode between the
    drop at second 3 and the reconnection at second 21, each listener's
    [lost_connection] is called twice, at seconds 13 and 19, not once:
    [start_timer_connection_lost] overwrites the field without cancelling
    the timer it held, and [stop_timer_connection_lost] cancels the last
    one only. *)
Lemma connection_lost_twice :
  option_map (λ w, (now w, task w, map tstate (timers w),
                    count_lost 7 (trace w), count_lost 8 (trace w)))
    (run outage (init 0 false))
  = Some (21, InLoop AtCheck None,
          [Pending; Pending; Fired; Fired; Cancelled; Pending], 2%nat, 2%nat).
Proof. vm_compute. reflexivity. Qed.

(** A drop followed by a reconnection that succeeds at the first attempt:
    the watchdog is cancelled and no listener is told. *)
Example connection_lost_suppressed :
  option_map (λ w, (now w, map tstate (timers w), count_lost 7 (trace w)))
    (run [AddListener 7; Login (Resp logged_in) true; Begin; Handshake true;
          Advance 3; Recv RRaise; Teardown true;
          Advance 5; Begin; Advance 1; Handshake true]
       (init 0 false))
  = Some (9, [Pending; Pending; Cancelled; Pending], 0%nat).
Proof. vm_compute. reflexivity. Qed.

Lemma spent_app (ts : list Timer) (i : nat) (t : Timer) :
  spent ts i → spent (ts ++ [t]) i.
Proof.
  intros (t0 & Ht & Hp). exists t0. split; [|done].
  rewrite lookup_app_l; [done|]. by eapply lookup_lt_Some.
Qed.

Lemma spent_mark (ts : list Timer) (i k : nat) (t' : Timer) :
  is_pending t' = false → spent ts i → spent (<[k := t']> ts) i.
Proof.
  intros Hp' (t0 & Ht & Hp). destruct (decide (k = i)) as [->|Hne].
  - exists t'. split; [|done].
    apply list_lookup_insert_eq. by eapply lookup_lt_Some.
  - exists t0. by rewrite list_lookup_insert_ne.
Qed.

(** A spent timer stays spent. *)
Lemma spent_step_all (i : nat) (j : Input) (w : State) :
  spent (timers w) i →
  match step j w with Some w' => spent (timers w') i | None => True end.
Proof.
  intros H. destruct j; unfold step.
  all: by_cases.
  all: simpl; try assumption.
  all: repeat first [ assumption | apply spent_app | apply spent_mark; [reflexivity|] ].
Qed.

Lemma spent_run (i : nat) (ins : list Input) (w w' : State) :
  run ins w = Some w' → spent (timers w) i → spent (timers w') i.
Proof.
  revert w. induction ins as [|j ins IH]; intros w Hr H; simpl in Hr.
  - by simplify_eq.
  - destruct (step j w) as [w1|] eqn:Hs; [|done].
    apply (IH w1 Hr).
    exact (on_step (λ w', spent (timers w') i) j w w1 (spent_step_all i j w H) Hs).
Qed.

Lemma spent_inert (i : nat) (h : Http) (w : State) :
  spent (timers w) i → step (Fire i h) w = None.
Proof. intros (t & Ht & Hp). unfold step, fire. by rewrite Ht, Hp. Qed.

(** A watchdog that is not cancelled calls every listener once, in the
    order of registration, and never fires again. *)
Lemma watchdog_fires_once (i : nat) (h : Http) (w : State) (t : Timer) :
  timers w !! i = Some t → callback t = CbLost → tstate t = Pending →
  deadline t ≤ now w →
  ∃ w', step (Fire i h) w = Some w'
        ∧ trace w' = trace w ++ map EvLostConnection (__event_listener w)
        ∧ ∀ ins w'' h', run ins w' = Some w'' → step (Fire i h') w'' = None.
Proof.
  intros Ht Hc Hs Hd. unfold step at 1. unfold fire. rewrite Ht.
  unfold is_pending at 1. rewrite Hs, Hc.
  destruct (Z.leb_spec (deadline t) (now w)); [|lia]. simpl.
  eexists. split; [reflexivity|]. split; [reflexivity|].
  intros ins w'' h' Hr. apply spent_inert. eapply spent_run; [exact Hr|].
  simpl. exists (mkTimer (deadline t) CbLost Fired). split; [|reflexivity].
  apply list_lookup_insert_eq. by eapply lookup_lt_Some.
Qed.

(** The end of a task that was not stopped starts a watchdog due ten
    seconds later and puts it in [_timer_connection_lost]; of the timers
    there were, it touches at most the one held by [_timer_ping]. *)
Lemma teardown_starts_watchdog (exc closed : bool) (w : State) :
  _stop_running w = false →
  task (teardown exc closed w) ≠ Crashed →
  ∃ ts, timers (teardown exc closed w) = ts ++ [mkTimer (now w + 10) CbLost Pending]
        ∧ _timer_connection_lost (teardown exc closed w) = Some (List.length ts)
        ∧ List.length ts = List.length (timers w)
        ∧ ∀ j t, _timer_ping w ≠ Some j → timers w !! j = Some t → ts !! j = Some t.
Proof.
  intros Hs. by_cases.
  all: try match goal with
           | H : negb (_stop_running _) = false |- _ =>
               simpl in H; rewrite Hs in H; discriminate H
           end.
  all: simpl; intros Hc; try done.
  all: eexists; split; [reflexivity|]; split; [reflexivity|]; split;
         [by rewrite ?length_insert|].
  all: intros j t' Hj Hl.
  all: first [ exact Hl | rewrite list_lookup_insert_ne; [exact Hl | congruence] ].
Qed.

(** Opening the socket cancels the timer held by
    [_timer_connection_lost] and touches no other timer. *)
Lemma handshake_cancels_last (us : bool) (w : State) :
  ∃ ts, timers (connect_handshake true us w) = ts ++ [mkTimer (now w + 588) CbPing Pending]
        ∧ (∀ i t, _timer_connection_lost w = Some i → timers w !! i = Some t →
                  spent ts i)
        ∧ ∀ j t, _timer_connection_lost w ≠ Some j → timers w !! j = Some t →
                 ts !! j = Some t.
Proof.
  by_cases.
  all: simpl; eexists; split; [reflexivity|]; split.
  all: try (intros j t' Hj Hl;
            first [ exact Hl
                  | rewrite list_lookup_insert_ne; [exact Hl | congruence] ]).
  all: intros i t' [= <-] Hl; simplify_eq.
  all: first
         [ eexists; split; [eassumption|]; unfold is_pending;
           by match goal with H : tstate _ = _ |- _ => rewrite H end
         | eexists; split;
           [apply list_lookup_insert_eq; by eapply lookup_lt_Some | reflexivity] ].
Qed.

Lemma count_lost_app (l : nat) (a b : list Event) :
  count_lost l (a ++ b) = (count_lost l a + count_lost l b)%nat.
Proof. unfold count_lost. by rewrite List.filter_app, length_app. Qed.

Lemma count_lost_map_data (l : nat) (js : json) (ls : list nat) :
  count_lost l (map (λ l', EvDataReceive l' js) ls) = 0%nat.
Proof. induction ls; [done | exact IHls]. Qed.

Lemma count_lost_drain (l : nat) (dbg : bool) (q : list dict) (oks : list bool) :
  count_lost l (drain dbg q oks).1 = 0%nat.
Proof.
  unfold count_lost. revert oks. induction q as [|m q IH]; intros oks; [done|].
  simpl. destruct oks as [|[] oks]; simpl.
  - specialize (IH []). destruct (drain dbg q []) as [evs r].
    by destruct dbg.
  - specialize (IH oks). destruct (drain dbg q oks) as [evs r].
    by destruct dbg.
  - by destruct dbg.
Qed.

Ltac count_losts l :=
  simpl; unfold count_lost;
  repeat rewrite List.filter_app;
  repeat rewrite length_app;
  try match goal with
      | H : drain ?a ?b ?c = (_, _) |- _ =>
          let Hd := fresh "Hd" in
          pose proof (count_lost_drain l a b c) as Hd; rewrite H in Hd;
          unfold count_lost in Hd; simpl in Hd; rewrite Hd
      end;
  try (let Hm := fresh "Hm" in
       pose proof count_lost_map_data as Hm; unfold count_lost in Hm; rewrite Hm);
  simpl; try lia.

(** The clock never goes back. *)
Lemma now_step_all (i : Input) (w : State) :
  match step i w with Some w' => now w ≤ now w' | None => True end.
Proof.
  destruct i; unfold step.
  1: { destruct (may_advance d w) eqn:E; [|done].
       apply may_advance_pos in E. simpl. lia. }
  all: by_cases.
  all: simpl; lia.
Qed.

Lemma now_run (ins : list Input) (w w' : State) :
  run ins w = Some w' → now w ≤ now w'.
Proof.
  revert w. induction ins as [|i ins IH]; intros w Hr; simpl in Hr.
  - simplify_eq. lia.
  - destruct (step i w) as [w1|] eqn:Hs; [|done].
    pose proof (on_step (λ w', now w ≤ now w') i w w1 (now_step_all i w) Hs) as H1.
    pose proof (IH w1 Hr). simpl in H1. lia.
Qed.

Lemma no_watchdog_spec (ts : list Timer) :
  no_watchdog ts = true ↔ ∀ j t, ts !! j = Some t → is_watchdog t = false.
Proof.
  unfold no_watchdog. rewrite forallb_forall. split.
  - intros H j t Hj. apply negb_true_iff, H.
    apply list_elem_of_In. by eapply list_elem_of_lookup_2.
  - intros H t Ht. apply list_elem_of_In, list_elem_of_lookup_1 in Ht as [j Hj].
    apply negb_true_iff. by eapply H.
Qed.

Lemma guarded_alloc (n : Z) (ts : list Timer) (l : option nat) (d : Z) (cb : Callback) :
  cb ≠ CbLost → guarded n ts l → guarded n (ts ++ [mkTimer d cb Pending]) l.
Proof.
  intros Hcb H j t Hj Hw.
  apply lookup_app_Some in Hj as [Hj | [_ Hj]]; [by eapply H|].
  apply list_lookup_singleton_Some in Hj as [_ <-].
  unfold is_watchdog in Hw. simpl in Hw. by destruct cb.
Qed.

Lemma guarded_mark (n : Z) (ts : list Timer) (l : option nat) (k : nat) (t' : Timer) :
  is_pending t' = false → guarded n ts l → guarded n (<[k := t']> ts) l.
Proof.
  intros Hp H j t Hj Hw.
  apply list_lookup_insert_Some in Hj as [(-> & <- & _) | [_ Hj]]; [|by eapply H].
  unfold is_watchdog in Hw. rewrite Hp in Hw. by destruct (callback t').
Qed.

(** A new watchdog, when none was pending. *)
Lemma guarded_new (n : Z) (ts : list Timer) (d : Z) :
  (∀ j t, ts !! j = Some t → is_watchdog t = false) → n < d →
  guarded n (ts ++ [mkTimer d CbLost Pending]) (Some (List.length ts)).
Proof.
  intros H Hn j t Hj Hw.
  apply lookup_app_Some in Hj as [Hj | [Hl Hj]].
  - rewrite (H j t Hj) in Hw. discriminate Hw.
  - apply list_lookup_singleton_Some in Hj as [Hj <-]. simpl.
    split; [f_equal; lia | exact Hn].
Qed.

Lemma quiet_mark (ts : list Timer) (k : nat) (t' : Timer) :
  is_pending t' = false →
  (∀ j t, ts !! j = Some t → is_watchdog t = false) →
  ∀ j t, <[k := t']> ts !! j = Some t → is_watchdog t = false.
Proof.
  intros Hp H j t Hj.
  apply list_lookup_insert_Some in Hj as [(-> & <- & _) | [_ Hj]]; [|by eapply H].
  unfold is_watchdog. rewrite Hp. by destruct (callback t').
Qed.

Lemma quiet_alloc (ts : list Timer) (d : Z) (cb : Callback) :
  cb ≠ CbLost →
  (∀ j t, ts !! j = Some t → is_watchdog t = false) →
  ∀ j t, (ts ++ [mkTimer d cb Pending]) !! j = Some t → is_watchdog t = false.
Proof.
  intros Hcb H j t Hj.
  apply lookup_app_Some in Hj as [Hj | [_ Hj]]; [by eapply H|].
  apply list_lookup_singleton_Some in Hj as [_ <-].
  unfold is_watchdog. simpl. by destruct cb.
Qed.

Lemma guarded_quiet (n : Z) (ts : list Timer) (l : option nat) :
  (∀ j t, ts !! j = Some t → is_watchdog t = false) → guarded n ts l.
Proof. intros H j t Hj Hw. rewrite (H j t Hj) in Hw. discriminate Hw. Qed.

(** Cancelling the timer that [_timer_connection_lost] holds leaves no
    watchdog pending. *)
Lemma guarded_cancel (n : Z) (ts : list Timer) (k : nat) (t' : Timer) :
  is_pending t' = false → guarded n ts (Some k) →
  ∀ j t, <[k := t']> ts !! j = Some t → is_watchdog t = false.
Proof.
  intros Hp H j t Hj.
  apply list_lookup_insert_Some in Hj as [(-> & <- & _) | [Hne Hj]].
  - unfold is_watchdog. rewrite Hp. by destruct (callback t').
  - destruct (is_watchdog t) eqn:Hw; [|done].
    destruct (H j t Hj Hw) as [[= ->] _]. done.
Qed.

Lemma guarded_unheld (n : Z) (ts : list Timer) (l : option nat) :
  guarded n ts l →
  match l with
  | Some k => match ts !! k with
              | Some t => is_pending t = false
              | None => True
              end
  | None => True
  end →
  ∀ j t, ts !! j = Some t → is_watchdog t = false.
Proof.
  intros H Hl j t Hj. destruct (is_watchdog t) eqn:Hw; [|done].
  destruct (H j t Hj Hw) as [-> _]. rewrite Hj in Hl.
  unfold is_watchdog in Hw. rewrite Hl in Hw. by destruct (callback t).
Qed.

Ltac guarded_solve :=
  repeat first
    [ assumption
    | apply guarded_alloc; [discriminate|]
    | apply guarded_mark; [reflexivity|] ].

(** While no connection task ends, every watchdog that can still fire
    stays the one held by the field. *)
Lemma guarded_step_all (n : Z) (i : Input) (w : State) :
  ends_task i = false →
  guarded n (timers w) (_timer_connection_lost w) →
  match step i w with
  | Some w' => guarded n (timers w') (_timer_connection_lost w')
  | None => True
  end.
Proof.
  intros He H. destruct i; try discriminate He; unfold step.
  all: by_cases.
  all: simpl; try assumption.
  all: try match goal with
           | E : _timer_connection_lost _ = _ |- _ => rewrite E in H
           end.
  all: norm_handles.
  all: guarded_solve.
Qed.

(** A step calls [lost_connection] only by firing a watchdog that is
    due. *)
Lemma count_lost_step_all (n : Z) (l : nat) (i : Input) (w : State) :
  now w ≤ n →
  guarded n (timers w) (_timer_connection_lost w) →
  match step i w with
  | Some w' => count_lost l (trace w') = count_lost l (trace w)
  | None => True
  end.
Proof.
  intros Hn H. destruct i as [d|k h|l'|h c|msg| | |ok|r|oks|closed]; unfold step.
  2: { unfold fire. destruct (timers w !! k) as [t|] eqn:Ht; [|done].
       destruct (is_pending t) eqn:Hp; [|done].
       destruct (Z.leb_spec (deadline t) (now w)); [|done].
       cbn [andb]. destruct (callback t) eqn:Hc.
       - by_cases. all: count_losts l.
       - by_cases. all: count_losts l.
       - destruct (H k t Ht) as [_ Hd]; [|lia].
         unfold is_watchdog. by rewrite Hc. }
  all: by_cases.
  all: count_losts l.
Qed.

Lemma guarded_run (n : Z) (l : nat) (ins : list Input) (w w' : State) :
  forallb (λ i, negb (ends_task i)) ins = true →
  run ins w = Some w' → now w' ≤ n →
  guarded n (timers w) (_timer_connection_lost w) →
  guarded n (timers w') (_timer_connection_lost w')
  ∧ count_lost l (trace w') = count_lost l (trace w).
Proof.
  revert w. induction ins as [|i ins IH]; intros w He Hr Hn H; simpl in Hr.
  - by simplify_eq.
  - simpl in He. apply andb_prop in He as [Hi He].
    apply negb_true_iff in Hi.
    destruct (step i w) as [w1|] eqn:Hs; [|done].
    pose proof (now_run ins w1 w' Hr) as H1.
    pose proof (on_step (λ w', now w ≤ now w') i w w1 (now_step_all i w) Hs) as H0.
    simpl in H0.
    pose proof (on_step (λ w', guarded n (timers w') (_timer_connection_lost w'))
                  i w w1 (guarded_step_all n i w Hi H) Hs) as Hg.
    pose proof (on_step (λ w', count_lost l (trace w') = count_lost l (trace w))
                  i w w1 (count_lost_step_all n l i w ltac:(lia) H) Hs) as Hc.
    simpl in Hg, Hc.
    destruct (IH w1 He Hr Hn Hg) as [Hg' Hc']. split; [exact Hg' | congruence].
Qed.

(** The watchdog started at the end of a task is the only one that can
    fire, when none could before. *)
Lemma teardown_guarded (n : Z) (exc closed : bool) (w : State) :
  _stop_running w = false →
  (∀ j t, timers w !! j = Some t → is_watchdog t = false) →
  n < now w + 10 →
  task (teardown exc closed w) ≠ Crashed →
  guarded n (timers (teardown exc closed w))
    (_timer_connection_lost (teardown exc closed w)).
Proof.
  intros Hs Hq Hn. by_cases.
  all: try match goal with
           | H : negb (_stop_running _) = false |- _ =>
               simpl in H; rewrite Hs in H; discriminate H
           end.
  all: simpl; intros Hc; try done.
  all: apply guarded_new; [|exact Hn].
  all: first [ exact Hq | apply quiet_mark; [reflexivity | exact Hq] ].
Qed.

(** Opening the socket leaves no watchdog pending, when the only one that
    could fire was the one held by the field. *)
Lemma handshake_quiet (n : Z) (us : bool) (w : State) :
  guarded n (timers w) (_timer_connection_lost w) →
  ∀ j t, timers (connect_handshake true us w) !! j = Some t → is_watchdog t = false.
Proof.
  intros H. by_cases.
  all: simpl.
  all: apply quiet_alloc; [discriminate|].
  all: try match goal with
           | E : _timer_connection_lost _ = _ |- _ => rewrite E in H
           end.
  all: first
         [ eapply guarded_cancel; [reflexivity | exact H]
         | eapply guarded_unheld; [exact H|]; simpl;
           repeat match goal with E : _ !! _ = _ |- _ => rewrite E end;
           unfold is_pending;
           repeat match goal with E : tstate _ = _ |- _ => rewrite E end;
           done ].
Qed.

(** A timer keeps its place and its callback. *)
Lemma kind_held_step_all (cb : Callback) (k : nat) (i : Input) (w : State) :
  has_kind (timers w) cb (Some k) →
  match step i w with
  | Some w' => has_kind (timers w') cb (Some k)
  | None => True
  end.
Proof.
  intros H. destruct i; unfold step.
  all: by_cases.
  all: simpl; try assumption.
  all: repeat first
         [ assumption
         | apply has_kind_app
         | eapply has_kind_mark; [eassumption | simpl; congruence | ] ].
Qed.

Lemma kind_held_run (cb : Callback) (k : nat) (ins : list Input) (w w' : State) :
  run ins w = Some w' → has_kind (timers w) cb (Some k) →
  has_kind (timers w') cb (Some k).
Proof.
  revert w. induction ins as [|i ins IH]; intros w Hr H; simpl in Hr.
  - by simplify_eq.
  - destruct (step i w) as [w1|] eqn:Hs; [|done].
    apply (IH w1 Hr).
    exact (on_step (λ w', has_kind (timers w') cb (Some k)) i w w1
             (kind_held_step_all cb k i w H) Hs).
Qed.

Lemma count_lost_teardown (l : nat) (exc closed : bool) (w : State) :
  count_lost l (trace (teardown exc closed w)) = count_lost l (trace w).
Proof. by_cases. all: count_losts l. Qed.

Lemma count_lost_handshake (l : nat) (ok us : bool) (w : State) :
  count_lost l (trace (connect_handshake ok us w)) = count_lost l (trace w).
Proof. by_cases. all: count_losts l. Qed.

Lemma kind_held_handshake (cb : Callback) (k : nat) (ok us : bool) (w : State) :
  has_kind (timers w) cb (Some k) →
  has_kind (timers (connect_handshake ok us w)) cb (Some k).
Proof.
  intros H. by_cases.
  all: simpl; try assumption.
  all: repeat first
         [ assumption
         | apply has_kind_app
         | eapply has_kind_mark; [eassumption | simpl; congruence | ] ].
Qed.

(** A drop at which no watchdog is pending, followed by a first attempt
    that opens the socket less than ten seconds later: no listener is told,
    the watchdog of the drop never fires, and no listener is told as long
    as no connection task ends. *)
Lemma reconnect_in_window (exc closed us : bool) (ins : list Input) (w w2 : State) :
  _stop_running w = false → no_watchdog (timers w) = true →
  task (teardown exc closed w) ≠ Crashed →
  forallb (λ i, negb (ends_task i)) ins = true →
  run ins (teardown exc closed w) = Some w2 → now w2 < now w + 10 →
  (∀ l, count_lost l (trace (connect_handshake true us w2)) = count_lost l (trace w))
  ∧ no_watchdog (timers (connect_handshake true us w2)) = true
  ∧ (∀ ins' w4 h, run ins' (connect_handshake true us w2) = Some w4 →
                  step (Fire (List.length (timers w)) h) w4 = None)
  ∧ (∀ ins' w4 l, forallb (λ i, negb (ends_task i)) ins' = true →
                  run ins' (connect_handshake true us w2) = Some w4 →
                  count_lost l (trace w4) = count_lost l (trace w)).
Proof.
  intros Hs Hq0 Hc He Hr Hn.
  pose proof (proj1 (no_watchdog_spec _) Hq0) as Hq.
  pose proof (teardown_guarded (now w2) exc closed w Hs Hq Hn Hc) as Hg1.
  assert (Hc1 : ∀ l, count_lost l (trace (teardown exc closed w)) = count_lost l (trace w)).
  { intros l. apply count_lost_teardown. }
  assert (Hq3 : ∀ j t, timers (connect_handshake true us w2) !! j = Some t →
                       is_watchdog t = false).
  { apply (handshake_quiet (now w2)).
    by destruct (guarded_run (now w2) 0%nat ins _ w2 He Hr ltac:(lia) Hg1). }
  assert (Hc3 : ∀ l, count_lost l (trace (connect_handshake true us w2))
                     = count_lost l (trace w)).
  { intros l.
    destruct (guarded_run (now w2) l ins _ w2 He Hr ltac:(lia) Hg1) as [Hg2 Hc2].
    by rewrite count_lost_handshake, Hc2, Hc1. }
  split; [exact Hc3|]. split; [exact (proj2 (no_watchdog_spec _) Hq3)|]. split.
  - intros ins' w4 h Hr'. apply spent_inert. eapply spent_run; [exact Hr'|].
    destruct (teardown_starts_watchdog exc closed w Hs Hc) as (ts & Hts & _ & Hlen & _).
    assert (Hk : has_kind (timers (teardown exc closed w)) CbLost
                   (Some (List.length (timers w)))).
    { rewrite Hts, <- Hlen. apply has_kind_new. }
    apply (kind_held_run _ _ _ _ _ Hr) in Hk.
    apply (kind_held_handshake _ _ true us) in Hk.
    destruct (Hk _ eq_refl) as (t & Ht & Hcb).
    exists t. split; [exact Ht|].
    pose proof (Hq3 _ _ Ht) as Hw. unfold is_watchdog in Hw. by rewrite Hcb in Hw.
  - intros ins' w4 l He' Hr'.
    destruct (guarded_run (now w4) l ins' _ w4 He' Hr' ltac:(lia)
                (guarded_quiet _ _ _ Hq3)) as [_ Hc4].
    by rewrite Hc4.
Qed.

(** C2, amended: every end of a connection task that was not stopped (a
    drop or a failed attempt) starts a watchdog of its own, due ten seconds
    later, in [_timer_connection_lost], and cancels none of the watchdogs
    started before; a watchdog that is due and was not cancelled calls
    [lost_connection] once on every listener and never fires again;
    opening the socket cancels the watchdog that [_timer_connection_lost]
    holds, the one started last, and no other timer.  So, after a drop at
    which no earlier watchdog is pending, a first attempt that opens the
    socket within the ten-second window (less than ten seconds after the
    drop) leaves no watchdog pending: no listener has been told of the
    loss, the watchdog of the drop never fires, and no listener is told as
    long as no connection task ends again. *)
Theorem watchdog_per_attempt (w : State) :
  (∀ exc closed w',
     task w = Leaving exc → _stop_running w = false →
     step (Teardown closed) w = Some w' → task w' ≠ Crashed →
     ∃ ts, timers w' = ts ++ [mkTimer (now w + 10) CbLost Pending]
           ∧ _timer_connection_lost w' = Some (List.length ts)
           ∧ List.length ts = List.length (timers w)
           ∧ ∀ j t, _timer_ping w ≠ Some j → timers w !! j = Some t →
                    ts !! j = Some t)
  ∧ (∀ i t h,
       timers w !! i = Some t → callback t = CbLost → tstate t = Pending →
       deadline t ≤ now w →
       ∃ w', step (Fire i h) w = Some w'
             ∧ trace w' = trace w ++ map EvLostConnection (__event_listener w)
             ∧ ∀ ins w'' h', run ins w' = Some w'' → step (Fire i h') w'' = None)
  ∧ (∀ us w',
       task w = Connecting us → step (Handshake true) w = Some w' →
       ∃ ts, timers w' = ts ++ [mkTimer (now w + 588) CbPing Pending]
             ∧ (∀ i t, _timer_connection_lost w = Some i → timers w !! i = Some t →
                       spent ts i)
             ∧ ∀ j t, _timer_connection_lost w ≠ Some j → timers w !! j = Some t →
                      ts !! j = Some t)
  ∧ (∀ exc closed w1 ins w2 w3,
       task w = Leaving exc → _stop_running w = false →
       no_watchdog (timers w) = true →
       step (Teardown closed) w = Some w1 → task w1 ≠ Crashed →
       forallb (λ i, negb (ends_task i)) ins = true →
       run ins w1 = Some w2 → now w2 < now w + 10 →
       step (Handshake true) w2 = Some w3 →
       (∀ l, count_lost l (trace w3) = count_lost l (trace w))
       ∧ no_watchdog (timers w3) = true
       ∧ (∀ ins' w4 h, run ins' w3 = Some w4 →
                       step (Fire (List.length (timers w)) h) w4 = None)
       ∧ (∀ ins' w4 l, forallb (λ i, negb (ends_task i)) ins' = true →
                       run ins' w3 = Some w4 →
                       count_lost l (trace w4) = count_lost l (trace w))).
Proof.
  split; [|split; [|split]].
  - intros exc closed w' Ht Hs Hstep Hc.
    unfold step in Hstep. rewrite Ht in Hstep. injection Hstep as <-.
    by apply teardown_starts_watchdog.
  - intros i t h. apply watchdog_fires_once.
  - intros us w' Ht Hstep.
    unfold step in Hstep. rewrite Ht in Hstep. injection Hstep as <-.
    apply handshake_cancels_last.
  - intros exc closed w1 ins w2 w3 Ht Hs Hq Hstep Hc He Hr Hn Hh.
    unfold step in Hstep. rewrite Ht in Hstep. injection Hstep as <-.
    unfold step in Hh. destruct (task w2) eqn:Ht2; try discriminate Hh.
    injection Hh as <-.
    by apply (reconnect_in_window exc closed update_state ins w w2).
Qed.

Lemma watchdog_per_attempt_witness :
  (let w := default (init 0 false)
              (run [AddListener 7; Login (Resp logged_in) true; Begin; Handshake true;
                    Advance 3; Recv RRaise; Teardown true; Advance 10]
                 (init 0 false)) in
   ∃ w', step (Fire 2 NetError) w = Some w'
         ∧ trace w' = trace w ++ map EvLostConnection (__event_listener w))
  ∧ (let w := default (init 0 false)
                (run [AddListener 7; Login (Resp logged_in) true; Begin; Handshake true;
                      Advance 3; Recv RRaise]
                   (init 0 false)) in
     ∃ w3, run [Teardown true; Advance 5; Begin; Advance 4; Handshake true] w = Some w3
           ∧ count_lost 7 (trace w3) = count_lost 7 (trace w)
           ∧ no_watchdog (timers w3) = true).
Proof.
  split.
  - intros w.
    destruct (watchdog_per_attempt w) as (_ & H & _).
    destruct (H 2%nat (mkTimer 13 CbLost Pending) NetError) as (w' & H1 & H2 & _).
    + vm_compute. reflexivity.
    + reflexivity.
    + reflexivity.
    + vm_compute. discriminate.
    + exists w'. split; [exact H1 | exact H2].
  - intros w.
    destruct (watchdog_per_attempt w) as (_ & _ & _ & H).
    destruct (H true true (teardown true true w) [Advance 5; Begin; Advance 4]
                (default w (run [Teardown true; Advance 5; Begin; Advance 4] w))
                (default w (run [Teardown true; Advance 5; Begin; Advance 4;
                                 Handshake true] w)))
      as (H1 & H2 & _).
    + vm_compute. reflexivity.
    + vm_compute. reflexivity.
    + vm_compute. reflexivity.
    + vm_compute. reflexivity.
    + vm_compute. discriminate.
    + vm_compute. reflexivity.
    + vm_compute. reflexivity.
    + vm_compute. reflexivity.
    + vm_compute. reflexivity.
    + eexists. split; [vm_compute; reflexivity|].
      split; [apply H1 | exact H2].
Defined.

(** ** Inbound frames that are not JSON *)

(** C6, evaluated on the code: the [except ValueError: pass] at line 218
    is followed by the dispatch on [js_data], outside the [try].  After a
    state update has been received, a frame that is not JSON delivers that
    update to the listener a second time; as the first frame of a
    connection it finds [js_data] unbound, and the exception leaves the
    loop and ends the connection. *)
Theorem malformed_frame_not_dropped :
  let upd := JObj [("message_type", JStr "StateUpdate"); ("power", JStr "on")] in
  let w := add_listener 7 (connected 1000 false) in
  option_map trace
    (run [Recv (RMsg TEXT (Parsed upd)); Drain []; Recv (RMsg TEXT Malformed)] w)
  = Some [LogInfo "Connected success"; EvDataReceive 7 upd; EvDataReceive 7 upd]
  ∧ option_map task (run [Recv (RMsg TEXT Malformed)] w) = Some (Leaving true)
  ∧ option_map (λ w, (task w, trace w))
      (run [Recv (RMsg TEXT Malformed); Teardown true] w)
    = Some (Scheduled 1005 true, [LogInfo "Connected success"; LogException]).
Proof. vm_compute. done. Qed.

(** * Further properties *)

(** ** Commands *)

(** X1: [send_action] queues the caller's command with every field other
    than [token], [mid] and [ts] as the caller gave it. *)
Theorem send_action_keeps_payload (msg : dict) (w : State) (k : string) :
  k ≠ "token" → k ≠ "mid" → k ≠ "ts" →
  ∃ m, _msg_to_send (send_action msg w) = _msg_to_send w ++ [m]
       ∧ dict_get k m = dict_get k msg.
Proof.
  intros H1 H2 H3. unfold send_action, get_ts.
  destruct (now w =? _last_ts_msg w); simpl; eexists; (split; [reflexivity|]).
  all: by rewrite !dict_get_set_ne by done.
Qed.

Lemma send_action_keeps_payload_witness :
  ∃ m, _msg_to_send (send_action [("actionValue", JStr "inc")] (session 1000 false))
       = _msg_to_send (session 1000 false) ++ [m]
       ∧ dict_get "actionValue" m = dict_get "actionValue" [("actionValue", JStr "inc")].
Proof.
  apply (send_action_keeps_payload [("actionValue", JStr "inc")] (session 1000 false)
           "actionValue"); discriminate.
Defined.

(** X2: two commands with no command between them never carry the same
    [ts], whatever the clock did in between, and a command's [ts] is the
    clock's second or the second after it. *)
Theorem consecutive_commands_ts_differ (a b : dict) (w w' : State) :
  _last_ts_msg w' = _last_ts_msg (send_action a w) →
  ∃ ma mb ta tb,
    _msg_to_send (send_action a w) = _msg_to_send w ++ [ma]
    ∧ _msg_to_send (send_action b w') = _msg_to_send w' ++ [mb]
    ∧ dict_get "ts" ma = Some (JInt ta)
    ∧ dict_get "ts" mb = Some (JInt tb)
    ∧ ta ≠ tb
    ∧ get_ts w' ≤ tb ≤ get_ts w' + 1.
Proof.
  intros Hl.
  destruct (send_action_queue a w) as (ma & Hqa & _ & _ & Hta).
  destruct (send_action_queue b w') as (mb & Hqb & _ & _ & Htb).
  exists ma, mb, (assigned_ts w), (assigned_ts w'). repeat split; try done.
  - destruct (send_action_last_ts a w) as [Hla _]. rewrite Hla in Hl.
    rewrite <- Hl. intros E. symmetry in E. by apply (send_action_ts_differs b w').
  - unfold assigned_ts, get_ts. destruct (now w' =? _last_ts_msg w'); lia.
  - unfold assigned_ts, get_ts. destruct (now w' =? _last_ts_msg w'); lia.
Qed.

Lemma consecutive_commands_ts_differ_witness :
  ∃ ma mb ta tb,
    _msg_to_send (send_action [] (session 1000 false))
    = _msg_to_send (session 1000 false) ++ [ma]
    ∧ _msg_to_send (send_action [] (send_action [] (session 1000 false)))
      = _msg_to_send (send_action [] (session 1000 false)) ++ [mb]
    ∧ dict_get "ts" ma = Some (JInt ta)
    ∧ dict_get "ts" mb = Some (JInt tb)
    ∧ ta ≠ tb
    ∧ get_ts (send_action [] (session 1000 false)) ≤ tb
      ≤ get_ts (send_action [] (session 1000 false)) + 1.
Proof.
  apply (consecutive_commands_ts_differ [] [] (session 1000 false)
           (send_action [] (session 1000 false))).
  reflexivity.
Defined.

(** ** Inbound frames *)

Lemma data_calls_app (a b : list Event) :
  data_calls (a ++ b) = data_calls a ++ data_calls b.
Proof.
  induction a as [|e a IH]; [done|]. destruct e; simpl; by rewrite ?IH.
Qed.

Lemma data_calls_map (js : json) (ls : list nat) :
  data_calls (map (λ l, EvDataReceive l js) ls) = map (λ l, (l, js)) ls.
Proof. induction ls as [|l ls IH]; [done|]. simpl. by rewrite IH. Qed.

(** X3: an inbound object with a [message_type] is handed to every
    listener, once each and in the order of registration, when the type is
    [StateUpdate], and to no listener otherwise; either way the loop goes
    on to its send part. *)
Theorem inbound_dispatch_filter (ty : WSMsgType) (d : dict) (v : json)
    (js_data : option json) (w : State) :
  _is_running w = true → is_close ty = false →
  dict_get "message_type" d = Some v →
  task (receive_part (RMsg ty (Parsed (JObj d))) js_data w)
  = InLoop AtDrain (Some (JObj d))
  ∧ data_calls (trace (receive_part (RMsg ty (Parsed (JObj d))) js_data w))
    = data_calls (trace w)
      ++ (if is_state_update v
          then map (λ l, (l, JObj d)) (__event_listener w) else []).
Proof.
  intros Hr Hc Hd. unfold receive_part. rewrite Hr, Hc. simpl.
  unfold log_receive, after_parse, dispatch, emit.
  destruct (debug w); simpl; rewrite Hd; destruct (is_state_update v); simpl.
  all: split; [reflexivity|].
  all: rewrite ?data_calls_app, ?data_calls_map; simpl; by rewrite ?app_nil_r.
Qed.

Lemma inbound_dispatch_filter_witness :
  data_calls
    (trace (receive_part
              (RMsg TEXT (Parsed (JObj [("message_type", JStr "StateUpdate")]))) None
              (add_listener 8 (add_listener 7 (connected 1000 false)))))
  = [(7%nat, JObj [("message_type", JStr "StateUpdate")]);
     (8%nat, JObj [("message_type", JStr "StateUpdate")])].
Proof.
  destruct (inbound_dispatch_filter TEXT [("message_type", JStr "StateUpdate")]
              (JStr "StateUpdate") None
              (add_listener 8 (add_listener 7 (connected 1000 false))))
    as [_ H]; [reflexivity | reflexivity | reflexivity |].
  exact H.
Defined.

(** X4: an inbound JSON value that is no object, or an object without
    [message_type], is handed to no listener and ends the connection: the
    exception leaves the loop. *)
Theorem inbound_without_type_drops_connection (ty : WSMsgType) (js : json)
    (js_data : option json) (w : State) :
  _is_running w = true → is_close ty = false → has_message_type js = false →
  task (receive_part (RMsg ty (Parsed js)) js_data w) = Leaving true
  ∧ data_calls (trace (receive_part (RMsg ty (Parsed js)) js_data w))
    = data_calls (trace w).
Proof.
  intros Hr Hc Hm. unfold receive_part. rewrite Hr, Hc. simpl.
  unfold log_receive, after_parse, dispatch, emit.
  destruct js as [| | | | |d]; destruct (debug w); simpl; try done.
  all: simpl in Hm; destruct (dict_get "message_type" d); try done; simpl.
  split; [done|]. rewrite data_calls_app. simpl. apply app_nil_r.
Qed.

Lemma inbound_without_type_drops_connection_witness :
  task (receive_part (RMsg TEXT (Parsed (JObj [("status", JInt 1)]))) None
          (connected 1000 false)) = Leaving true.
Proof.
  destruct (inbound_without_type_drops_connection TEXT (JObj [("status", JInt 1)]) None
              (connected 1000 false)) as [H _]; [reflexivity..|].
  exact H.
Defined.

(** X5: a frame of type CLOSE, CLOSED or CLOSING leaves the loop without
    an exception and is neither parsed nor dispatched, whatever it
    carries. *)
Theorem close_frame_leaves_loop (ty : WSMsgType) (data : Payload)
    (js_data : option json) (w : State) :
  _is_running w = true → is_close ty = true →
  task (receive_part (RMsg ty data) js_data w) = Leaving false
  ∧ data_calls (trace (receive_part (RMsg ty data) js_data w))
    = data_calls (trace w).
Proof.
  intros Hr Hc. unfold receive_part. rewrite Hr, Hc. simpl.
  unfold log_debug, emit. destruct (debug w); simpl; [|done].
  split; [done|]. rewrite data_calls_app. apply app_nil_r.
Qed.

Lemma close_frame_leaves_loop_witness :
  task (receive_part
          (RMsg CLOSING (Parsed (JObj [("message_type", JStr "StateUpdate")]))) None
          (add_listener 7 (connected 1000 false))) = Leaving false.
Proof.
  destruct (close_frame_leaves_loop CLOSING
              (Parsed (JObj [("message_type", JStr "StateUpdate")])) None
              (add_listener 7 (connected 1000 false))) as [H _]; [reflexivity..|].
  exact H.
Defined.

(** ** The end of a connection *)

(** X6: when no stop was requested, the end of the connection task
    schedules the next attempt five seconds later, with the device
    snapshot requested; the queue and the tokens are kept, and the refresh
    timestamp is set back by 1200 seconds exactly when an exception ended
    the task. *)
Theorem teardown_schedules_reconnect (exc closed : bool) (w : State) :
  _stop_running w = false →
  task (teardown exc closed w) ≠ Crashed →
  task (teardown exc closed w) = Scheduled (now w + 5) true
  ∧ _last_refresh_token_ts (teardown exc closed w)
    = (if exc then Some (now w - 1200) else _last_refresh_token_ts w)
  ∧ _msg_to_send (teardown exc closed w) = _msg_to_send w
  ∧ _access_token (teardown exc closed w) = _access_token w
  ∧ _session_id (teardown exc closed w) = _session_id w.
Proof.
  intros Hs. by_cases.
  all: try match goal with
           | H : negb (_stop_running _) = false |- _ =>
               simpl in H; rewrite Hs in H; discriminate H
           end.
  all: simpl; intros Hc; done.
Qed.

Lemma teardown_schedules_reconnect_witness :
  task (teardown true true (connected 1000 false)) = Scheduled 1005 true.
Proof.
  destruct (teardown_schedules_reconnect true true (connected 1000 false))
    as [H _].
  - reflexivity.
  - vm_compute. discriminate.
  - exact H.
Defined.

(** ** Token refresh and login *)

Lemma async_refresh_token_failed (h : Http) (w : State) :
  refresh_failed h = true →
  _access_token (async_refresh_token h w) = _access_token w
  ∧ _refresh_token (async_refresh_token h w) = _refresh_token w
  ∧ _last_refresh_token_ts (async_refresh_token h w) = _last_refresh_token_ts w
  ∧ now (async_refresh_token h w) = now w.
Proof.
  intros Hf. unfold async_refresh_token, log_debug, emit.
  destruct h as [|r]; simpl in Hf.
  - by destruct (debug w).
  - apply negb_true_iff in Hf. rewrite Hf. by destruct (debug w).
Qed.

Lemma async_refresh_token_ok (r : Reply) (w : State) :
  http_status r = 200 → rep_success r = true →
  _access_token (async_refresh_token (Resp r) w) = rep_access r
  ∧ _refresh_token (async_refresh_token (Resp r) w) = rep_refresh r
  ∧ _last_refresh_token_ts (async_refresh_token (Resp r) w) = Some (now w)
  ∧ _session_id (async_refresh_token (Resp r) w) = _session_id w
  ∧ now (async_refresh_token (Resp r) w) = now w.
Proof.
  intros Hh Hs. unfold async_refresh_token, log_debug, emit, get_ts.
  rewrite Hh, Hs. simpl. destruct (debug w) eqn:E; simpl; rewrite ?E; by simpl.
Qed.

Lemma refresh_token_due (h : Http) (w : State) (l : Z) :
  _last_refresh_token_ts w = Some l → 1200 < now w - l →
  ∃ w0, refresh_token h w = async_refresh_token h w0
        ∧ _access_token w0 = _access_token w
        ∧ _refresh_token w0 = _refresh_token w
        ∧ _session_id w0 = _session_id w
        ∧ _last_refresh_token_ts w0 = Some l
        ∧ now w0 = now w.
Proof.
  intros Hl Hd. unfold refresh_token, start_timer_refreshtoken, get_ts. simpl.
  rewrite Hl. destruct (Z.ltb_spec 1200 (now w - l)); [|lia].
  eexists. split; [reflexivity|]. unfold emit. simpl. by rewrite Hl.
Qed.

(** X7: a refresh that fails (the request raises, the status is not 200,
    or the body does not say SUCCESS) leaves both tokens and the refresh
    timestamp as they were, so the next tick of the refresh timer, whenever
    it comes, calls the refresh again. *)
Theorem refresh_failure_is_retried (h h' : Http) (w : State) (l d : Z) :
  refresh_failed h = true →
  _last_refresh_token_ts w = Some l → 1200 < now w - l → 0 ≤ d →
  _access_token (refresh_token h w) = _access_token w
  ∧ _refresh_token (refresh_token h w) = _refresh_token w
  ∧ _last_refresh_token_ts (refresh_token h w) = Some l
  ∧ refresh_calls (trace (refresh_token h' (set_now (now w + d) (refresh_token h w))))
    = S (refresh_calls (trace (refresh_token h w))).
Proof.
  intros Hf Hl Hd Hpos.
  destruct (refresh_token_due h w l Hl Hd) as (w0 & E & Ha & Hr & _ & Hl0 & Hn).
  destruct (async_refresh_token_failed h w0 Hf) as (Ha' & Hr' & Hl' & Hn').
  rewrite E. repeat split; try congruence.
  rewrite (refresh_token_calls h' _ l).
  - cbn [set_now now trace].
    destruct (Z.ltb_spec 1200 (now w + d - l)); [|lia]. lia.
  - cbn [set_now _last_refresh_token_ts]. congruence.
Qed.

Lemma refresh_failure_is_retried_witness :
  refresh_calls
    (trace (refresh_token NetError
              (set_now (now (at_elapsed 1201) + 60)
                 (refresh_token NetError (at_elapsed 1201)))))
  = S (refresh_calls (trace (refresh_token NetError (at_elapsed 1201)))).
Proof.
  destruct (refresh_failure_is_retried NetError NetError (at_elapsed 1201) 5000 60)
    as (_ & _ & _ & H).
  - reflexivity.
  - reflexivity.
  - vm_compute. reflexivity.
  - vm_compute. discriminate.
  - exact H.
Defined.

(** X8: a refresh that succeeds stores the two tokens of the reply, keeps
    the session id and sets the refresh timestamp to the clock, so that no
    tick within the next 1200 seconds calls the refresh. *)
Theorem refresh_success_rests (r : Reply) (h' : Http) (w : State) (l d : Z) :
  http_status r = 200 → rep_success r = true →
  _last_refresh_token_ts w = Some l → 1200 < now w - l → d ≤ 1200 →
  _access_token (refresh_token (Resp r) w) = rep_access r
  ∧ _refresh_token (refresh_token (Resp r) w) = rep_refresh r
  ∧ _session_id (refresh_token (Resp r) w) = _session_id w
  ∧ _last_refresh_token_ts (refresh_token (Resp r) w) = Some (now w)
  ∧ refresh_calls
      (trace (refresh_token h' (set_now (now w + d) (refresh_token (Resp r) w))))
    = refresh_calls (trace (refresh_token (Resp r) w)).
Proof.
  intros Hh Hs Hl Hd Hle.
  destruct (refresh_token_due (Resp r) w l Hl Hd) as (w0 & E & _ & _ & Hsid & _ & Hn).
  destruct (async_refresh_token_ok r w0 Hh Hs) as (Ha' & Hr' & Hl' & Hs' & Hn').
  rewrite E. repeat split; try congruence.
  rewrite (refresh_token_calls h' _ (now w)).
  - cbn [set_now now trace].
    destruct (Z.ltb_spec 1200 (now w + d - now w)); [lia|]. lia.
  - cbn [set_now _last_refresh_token_ts]. congruence.
Qed.

Lemma refresh_success_rests_witness :
  _access_token (refresh_token (Resp logged_in) (at_elapsed 1201)) = "tok"
  ∧ _last_refresh_token_ts (refresh_token (Resp logged_in) (at_elapsed 1201))
    = Some 6201.
Proof.
  destruct (refresh_success_rests logged_in NetError (at_elapsed 1201) 5000 60)
    as (H1 & _ & _ & H2 & _).
  - reflexivity.
  - reflexivity.
  - reflexivity.
  - vm_compute. reflexivity.
  - vm_compute. discriminate.
  - split; [exact H1 | exact H2].
Defined.

(** X9: a login whose request raises or whose status is not 200 changes
    nothing but the log: no token, no timestamp, no timer, no task. *)
Theorem login_rejected_changes_nothing (h : Http) (c : bool) (w : State) :
  match h with NetError => True | Resp r => http_status r ≠ 200 end →
  ∃ w', async_auth h c w = Some w'
        ∧ _access_token w' = _access_token w
        ∧ _refresh_token w' = _refresh_token w
        ∧ _session_id w' = _session_id w
        ∧ _last_refresh_token_ts w' = _last_refresh_token_ts w
        ∧ timers w' = timers w
        ∧ _timer_refresh w' = _timer_refresh w
        ∧ task w' = task w.
Proof.
  intros Hh. unfold async_auth, log_debug, emit. destruct h as [|r].
  - eexists. split; [reflexivity|]. by destruct (debug w).
  - destruct (Z.eqb_spec (http_status r) 200) as [E|_]; [contradiction|].
    eexists. split; [reflexivity|]. by destruct (debug w).
Qed.

Lemma login_rejected_changes_nothing_witness :
  ∃ w', async_auth (Resp (mkReply 401 0 EmptyString EmptyString EmptyString EmptyString)) true (init 0 false) = Some w'
        ∧ _access_token w' = _access_token (init 0 false).
Proof.
  destruct (login_rejected_changes_nothing (Resp (mkReply 401 0 EmptyString EmptyString EmptyString EmptyString)) true
              (init 0 false)) as (w' & H1 & H2 & _).
  - simpl. discriminate.
  - exists w'. split; [exact H1 | exact H2].
Defined.

(** X10: a login answered with status 200 whose body does not say
    SUCCESS stores no token and creates no task when the session has no
    access token yet, but it does set the refresh timestamp and start the
    refresh timer. *)
Theorem login_without_success_starts_timer (r : Reply) (c : bool) (w : State) :
  http_status r = 200 → rep_success r = false → _access_token w = EmptyString →
  ∃ w', async_auth (Resp r) c w = Some w'
        ∧ _access_token w' = EmptyString
        ∧ task w' = task w
        ∧ _last_refresh_token_ts w' = Some (now w)
        ∧ _timer_refresh w' = Some (List.length (timers w))
        ∧ timers w' = timers w ++ [mkTimer (now w + 60) CbRefresh Pending].
Proof.
  intros Hh Hs Ha. unfold async_auth, log_debug, emit, get_ts.
  rewrite Hh, Hs. simpl.
  destruct (debug w); simpl; rewrite Ha; simpl; rewrite andb_false_r; simpl.
  all: eexists; split; [reflexivity|]; by simpl.
Qed.

Lemma login_without_success_starts_timer_witness :
  ∃ w', async_auth (Resp (mkReply 200 401 "FAILED" EmptyString EmptyString EmptyString)) true (init 0 false)
        = Some w'
        ∧ _timer_refresh w' = Some 0%nat.
Proof.
  destruct (login_without_success_starts_timer (mkReply 200 401 "FAILED" EmptyString EmptyString EmptyString) true
              (init 0 false)) as (w' & H1 & _ & _ & _ & H2 & _); [reflexivity..|].
  exists w'. split; [exact H1 | exact H2].
Defined.

(** X11: a login answered with SUCCESS stores the access token, the
    refresh token and the session id of the reply, sets the refresh
    timestamp to the clock and starts the refresh timer; it creates the
    connection task exactly when [connect_ws] is set and the access token
    of the reply is not empty. *)
Theorem login_success_stores_session (r : Reply) (c : bool) (w : State) :
  http_status r = 200 → rep_success r = true → task_live (task w) = false →
  ∃ w', async_auth (Resp r) c w = Some w'
        ∧ _access_token w' = rep_access r
        ∧ _refresh_token w' = rep_refresh r
        ∧ _session_id w' = rep_session r
        ∧ _last_refresh_token_ts w' = Some (now w)
        ∧ _timer_refresh w' = Some (List.length (timers w))
        ∧ task w'
          = (if c && negb (String.eqb (rep_access r) EmptyString)
             then Scheduled (now w) false else task w).
Proof.
  intros Hh Hs Hl. unfold async_auth, log_debug, emit, get_ts.
  rewrite Hh, Hs. simpl.
  destruct (debug w); simpl; rewrite Hl, andb_false_r; simpl.
  all: eexists; split; [reflexivity|].
  all: destruct (c && negb (String.eqb (rep_access r) EmptyString)); by simpl.
Qed.

Lemma login_success_stores_session_witness :
  ∃ w', async_auth (Resp logged_in) true (init 0 false) = Some w'
        ∧ _session_id w' = "sid" ∧ task w' = Scheduled 0 false.
Proof.
  destruct (login_success_stores_session logged_in true (init 0 false))
    as (w' & H1 & _ & _ & H2 & _ & _ & H3); [reflexivity..|].
  exists w'. split; [exact H1|]. split; [exact H2 | exact H3].
Defined.

(** ** Keep-alive *)

(** X12: a ping timer that is due queues one keep-alive frame behind
    what is queued and starts the next ping timer, due 588 seconds later,
    whatever the connection task is doing (connected, waiting, stopped). *)
Theorem ping_timer_requeues (i : nat) (h : Http) (w : State) (t : Timer) :
  timers w !! i = Some t → callback t = CbPing → tstate t = Pending →
  deadline t ≤ now w →
  ∃ w', step (Fire i h) w = Some w'
        ∧ _msg_to_send w'
          = _msg_to_send w
            ++ [[("message", JStr "Ping Connection Reset");
                 ("token", JStr (_access_token w))]]
        ∧ _timer_ping w' = Some (List.length (timers w))
        ∧ timers w' !! List.length (timers w)
          = Some (mkTimer (now w + 588) CbPing Pending)
        ∧ task w' = task w.
Proof.
  intros Ht Hc Hs Hd. unfold step, fire. rewrite Ht.
  unfold is_pending. rewrite Hs, Hc.
  destruct (Z.leb_spec (deadline t) (now w)); [|lia].
  cbn [andb run_callback].
  eexists. split; [reflexivity|].
  unfold send_ping, start_timer_ping, start_timer, log_debug, emit, send_json. simpl.
  destruct (debug w) eqn:E; simpl; rewrite length_insert.
  all: repeat split; try reflexivity.
  all: rewrite <- (length_insert (timers w) i (mkTimer (deadline t) CbPing Fired)).
  all: apply lookup_new.
Qed.

Lemma ping_timer_requeues_witness :
  ∃ w', step (Fire 0 NetError) (set_now 1588 (connected 1000 false)) = Some w'
        ∧ _timer_ping w' = Some 1%nat.
Proof.
  destruct (ping_timer_requeues 0 NetError (set_now 1588 (connected 1000 false))
              (mkTimer 1588 CbPing Pending)) as (w' & H1 & _ & H2 & _).
  - reflexivity.
  - reflexivity.
  - reflexivity.
  - vm_compute. discriminate.
  - exists w'. split; [exact H1 | exact H2].
Defined.

(** X13: the end of the connection task cancels the ping timer only when
    the object has a socket that is not closed yet; with the socket closed
    already the ping timer stays pending and goes on queueing keep-alive
    frames while the session is disconnected. *)
Theorem teardown_ping_timer (exc closed : bool) (w : State) (i : nat) (t : Timer) :
  _timer_ping w = Some i → timers w !! i = Some t → tstate t = Pending →
  timers (teardown exc closed w) !! i
  = Some (if _websocket w && negb closed
          then mkTimer (deadline t) (callback t) Cancelled else t).
Proof.
  intros Hp Ht Hs. unfold teardown.
  assert (Hlt : (i < List.length (timers w))%nat) by (by eapply lookup_lt_Some).
  by_cases.
  all: simpl in *; simplify_eq.
  all: rewrite ?lookup_app_l by (rewrite ?length_insert; lia).
  all: first [ by apply list_lookup_insert_eq | assumption | congruence ].
Qed.

Lemma teardown_ping_timer_witness :
  timers (teardown true true (connected 1000 false)) !! 0%nat
  = Some (mkTimer 1588 CbPing Pending).
Proof.
  apply (teardown_ping_timer true true (connected 1000 false) 0
           (mkTimer 1588 CbPing Pending)); reflexivity.
Defined.

(** ** The queue over the life of the session *)








(** ** Stopping, listeners and the forced refresh *)

(** X15: [close] called while the task waits for its next attempt does
    not stop the session: the attempt starts all the same, sets
    [_is_running] and clears [_stop_running] again, and opens a socket. *)
Theorem close_while_waiting_is_undone (w : State) (t : Z) (us : bool) :
  task w = Scheduled t us → t ≤ now w →
  ∃ w', run [Close; Begin] w = Some w'
        ∧ _stop_running w' = false
        ∧ _is_running w' = true
        ∧ task w' = Connecting us
        ∧ connects (trace w') = S (connects (trace w)).
Proof.
  intros Ht Hle.
  assert (Hb : step Begin (close w) = Some (connect_begin us (close w))).
  { unfold step. change (task (close w)) with (task w). rewrite Ht.
    change (now (close w)) with (now w).
    by destruct (Z.leb_spec t (now w)); [|lia]. }
  exists (connect_begin us (close w)). split.
  - cbn [run]. change (step Close w) with (Some (close w)). cbn iota. by rewrite Hb.
  - unfold connect_begin, emit. simpl. repeat split.
    rewrite connects_app. unfold connects at 2. simpl. lia.
Qed.

Lemma close_while_waiting_is_undone_witness :
  ∃ w', run [Close; Begin] (set_now 1005 (teardown true true (connected 1000 false)))
        = Some w'
        ∧ _stop_running w' = false.
Proof.
  destruct (close_while_waiting_is_undone
              (set_now 1005 (teardown true true (connected 1000 false))) 1005 true)
    as (w' & H1 & H2 & _).
  - vm_compute. reflexivity.
  - vm_compute. discriminate.
  - exists w'. split; [exact H1 | exact H2].
Defined.

Lemma listeners_step_all (i : Input) (w : State) :
  match step i w with
  | Some w' => ∃ more, __event_listener w' = __event_listener w ++ more
  | None => True
  end.
Proof.
  destruct i; unfold step.
  all: by_cases.
  all: simpl.
  all: first [ exists []; by rewrite app_nil_r | eexists; reflexivity ].
Qed.

(** X16: listeners are only ever added, at the end: after any run the
    listeners registered before are still registered, in the same order,
    followed by the new ones. *)
Theorem listeners_are_append_only (ins : list Input) (w w' : State) :
  run ins w = Some w' →
  ∃ more, __event_listener w' = __event_listener w ++ more.
Proof.
  revert w. induction ins as [|i ins IH]; intros w Hr; simpl in Hr.
  - simplify_eq. exists []. by rewrite app_nil_r.
  - destruct (step i w) as [w1|] eqn:Hs; [|done].
    destruct (IH w1 Hr) as [m2 H2].
    pose proof (listeners_step_all i w) as H1. rewrite Hs in H1.
    destruct H1 as [m1 H1]. exists (m1 ++ m2). by rewrite H2, H1, app_assoc.
Qed.

Lemma listeners_are_append_only_witness :
  ∃ more, __event_listener (after_login [AddListener 7; Close])
          = __event_listener (after_login []) ++ more.
Proof.
  apply (listeners_are_append_only [AddListener 7; Close]).
  vm_compute. reflexivity.
Defined.

Lemma teardown_exception_ts (closed : bool) (w : State) :
  _last_refresh_token_ts (teardown true closed w) = Some (now w - 1200)
  ∧ now (teardown true closed w) = now w.
Proof. by_cases; simpl; done. Qed.

(** X17: after the exception handler of the connection task has run at
    second [t], a tick of the refresh timer calls the refresh as soon as
    the clock has moved on, and not within second [t] itself. *)
Theorem connection_failure_forces_refresh (closed : bool) (h : Http) (w : State) (d : Z) :
  refresh_calls
    (trace (refresh_token h (set_now (now w + d) (teardown true closed w))))
  = (refresh_calls (trace (teardown true closed w))
     + (if (0 <? d)%Z then 1 else 0))%nat.
Proof.
  destruct (teardown_exception_ts closed w) as [Hl Hn].
  rewrite (refresh_token_calls h _ (now w - 1200)).
  - cbn [set_now now trace].
    destruct (Z.ltb_spec 1200 (now w + d - (now w - 1200)));
      destruct (Z.ltb_spec 0 d); try lia; reflexivity.
  - cbn [set_now _last_refresh_token_ts]. exact Hl.
Qed.

Lemma handshake_ts (us : bool) (w : State) :
  _last_refresh_token_ts (connect_handshake true us w) = Some (now w)
  ∧ now (connect_handshake true us w) = now w.
Proof. by_cases; simpl; done. Qed.

(** X18: opening the socket sets the refresh timestamp to the clock,
    whatever it was, also when the exception handler had set it back: no
    tick of the refresh timer in the 1200 seconds that follow calls the
    refresh. *)
Theorem connecting_postpones_refresh (us : bool) (h : Http) (w : State) (d : Z) :
  d ≤ 1200 →
  refresh_calls
    (trace (refresh_token h (set_now (now w + d) (connect_handshake true us w))))
  = refresh_calls (trace (connect_handshake true us w)).
Proof.
  intros Hd. destruct (handshake_ts us w) as [Hl Hn].
  rewrite (refresh_token_calls h _ (now w)).
  - cbn [set_now now trace].
    destruct (Z.ltb_spec 1200 (now w + d - now w)); [lia|]. apply Nat.add_0_r.
  - cbn [set_now _last_refresh_token_ts]. exact Hl.
Qed.

Lemma connecting_postpones_refresh_witness :
  refresh_calls
    (trace (refresh_token NetError
              (set_now (now (teardown true true (connected 1000 false)) + 60)
                 (connect_handshake true true
                    (teardown true true (connected 1000 false))))))
  = refresh_calls
      (trace (connect_handshake true true (teardown true true (connected 1000 false)))).
Proof.
  apply (connecting_postpones_refresh true NetError
           (teardown true true (connected 1000 false)) 60).
  vm_compute. discriminate.
Defined.

(** ** Substrings *)

Lemma substring_prefix (x s : string) :
  String.substring 0 (String.length x) s = x → ∃ q, s = x +:+ q.
Proof.
  revert s. induction x as [|c x IH]; intros s H.
  - by exists s.
  - destruct s as [|c' s]; simpl in H; [discriminate|].
    injection H as -> H. destruct (IH s H) as [q ->]. by exists q.
Qed.

Lemma substring_inside (m : nat) (x s : string) :
  String.substring m (String.length x) s = x → ∃ p q, s = p +:+ x +:+ q.
Proof.
  revert s. induction m as [|m IH]; intros s H.
  - destruct (substring_prefix x s H) as [q ->]. by exists EmptyString, q.
  - destruct s as [|c s]; simpl in H.
    + exists EmptyString, EmptyString. by rewrite <- H.
    + destruct (IH s H) as (p & q & ->). by exists (String c p), q.
Qed.

Lemma substring_at_0 (x q : string) :
  String.substring 0 (String.length x) (x +:+ q) = x.
Proof.
  induction x as [|c x IH]; simpl.
  - by destruct q.
  - by rewrite IH.
Qed.

Lemma substring_at (p x q : string) :
  String.substring (String.length p) (String.length x) (p +:+ x +:+ q) = x.
Proof. induction p as [|c p IH]; [exact (substring_at_0 x q) | exact IH]. Qed.

Lemma index_empty (s : string) : String.index 0 EmptyString s = Some 0%nat.
Proof. by destruct s. Qed.

(** [contains] is Python's [in] on strings. *)
Lemma contains_spec (x s : string) :
  contains x s = true ↔ ∃ p q, s = p +:+ x +:+ q.
Proof.
  unfold contains. split.
  - destruct (String.index 0 x s) as [m|] eqn:E; [|discriminate]. intros _.
    apply (substring_inside m). by apply (String.index_correct1 0).
  - intros (p & q & ->).
    destruct (String.index 0 x (p +:+ x +:+ q)) as [m|] eqn:E; [done|].
    destruct x as [|c x]; [by rewrite index_empty in E|].
    exfalso.
    apply (String.index_correct3 0 (String.length p) _ _ E); [done | lia |].
    apply substring_at.
Qed.

Lemma append_assoc (a b c : string) : (a +:+ b) +:+ c = a +:+ b +:+ c.
Proof.
  induction a as [|x a IH]; [done|].
  change (String x ((a +:+ b) +:+ c) = String x (a +:+ b +:+ c)). by rewrite IH.
Qed.

Lemma append_empty_r (a : string) : a +:+ EmptyString = a.
Proof.
  induction a as [|x a IH]; [done|].
  change (String x (a +:+ EmptyString) = String x a). by rewrite IH.
Qed.

Lemma contains_append_l (x s t : string) :
  contains x s = true → contains x (s +:+ t) = true.
Proof.
  intros (p & q & ->)%contains_spec. apply contains_spec.
  exists p, (q +:+ t). by rewrite !append_assoc.
Qed.

Lemma contains_append_r (x s : string) : contains x (s +:+ x) = true.
Proof.
  apply contains_spec. exists s, EmptyString. by rewrite append_empty_r.
Qed.

(** ** The list of appliance ids *)

Lemma add_id_extends (acc id : string) : ∃ t, add_id acc id = acc +:+ t.
Proof.
  unfold add_id. destruct (contains id acc).
  - exists EmptyString. by rewrite append_empty_r.
  - destruct (String.eqb acc EmptyString).
    + by exists id.
    + exists ("," +:+ id). by rewrite append_assoc.
Qed.

Lemma add_id_contains (acc id : string) : contains id (add_id acc id) = true.
Proof.
  unfold add_id. destruct (contains id acc) eqn:E; [done|].
  apply contains_append_r.
Qed.

Lemma collect_ids_extends py_str (acc ids : string) (devices : list dict) :
  collect_ids py_str acc devices = Return ids → ∃ t, ids = acc +:+ t.
Proof.
  revert acc. induction devices as [|d r IH]; intros acc H; simpl in H.
  - injection H as <-. exists EmptyString. by rewrite append_empty_r.
  - destruct (dict_get "applianceId" d) as [v|]; [|discriminate].
    destruct (IH _ H) as [t ->]. destruct (add_id_extends acc (py_str v)) as [t' ->].
    exists (t' +:+ t). by rewrite append_assoc.
Qed.

Lemma collect_ids_covers_from py_str (acc ids : string) (devices : list dict) (d : dict) :
  collect_ids py_str acc devices = Return ids → d ∈ devices →
  ∃ v, dict_get "applianceId" d = Some v ∧ contains (py_str v) ids = true.
Proof.
  intros H Hd. revert acc H.
  induction devices as [|d0 r IH]; intros acc H; [by apply elem_of_nil in Hd|].
  simpl in H. destruct (dict_get "applianceId" d0) as [v|] eqn:E; [|discriminate].
  apply elem_of_cons in Hd as [->|Hd].
  - exists v. split; [done|].
    destruct (collect_ids_extends _ _ _ _ H) as [t ->].
    apply contains_append_l, add_id_contains.
  - by apply (IH Hd (add_id acc (py_str v))).
Qed.

(** X19: when the loop over the devices ends, every device has an
    [applianceId] and the text of each id occurs in the list of ids that is
    requested. *)
Theorem collect_ids_covers (py_str : json → string) (devices : list dict)
    (ids : string) (d : dict) :
  collect_ids py_str EmptyString devices = Return ids → d ∈ devices →
  ∃ v, dict_get "applianceId" d = Some v ∧ contains (py_str v) ids = true.
Proof. apply collect_ids_covers_from. Qed.

Lemma collect_ids_covers_witness :
  ∃ v, dict_get "applianceId" [("applianceId", JInt 5)] = Some v
       ∧ contains (id_text v) "15" = true.
Proof.
  apply (collect_ids_covers id_text
           [[("applianceId", JInt 15)]; [("applianceId", JInt 5)]] "15"
           [("applianceId", JInt 5)]).
  - vm_compute. reflexivity.
  - apply elem_of_cons. right. apply elem_of_cons. by left.
Defined.

Lemma collect_ids_app py_str (acc : string) (a b : list dict) :
  collect_ids py_str acc (a ++ b)
  = match collect_ids py_str acc a with
    | Return acc' => collect_ids py_str acc' b
    | Raise => Raise
    end.
Proof.
  revert acc. induction a as [|d a IH]; intros acc; [done|]. simpl.
  destruct (dict_get "applianceId" d); [apply IH | done].
Qed.

(** X20: an id is skipped whenever its text occurs anywhere in the list
    built so far, be it inside a longer id; otherwise it is appended, after
    a comma unless the list is empty. *)
Theorem collect_ids_next (py_str : json → string) (devices : list dict)
    (acc : string) (d : dict) (v : json) :
  collect_ids py_str EmptyString devices = Return acc →
  dict_get "applianceId" d = Some v →
  collect_ids py_str EmptyString (devices ++ [d])
  = Return (if contains (py_str v) acc then acc
            else if String.eqb acc EmptyString then py_str v
            else acc +:+ "," +:+ py_str v).
Proof.
  intros H Hd. rewrite collect_ids_app, H. simpl. rewrite Hd. unfold add_id.
  destruct (contains (py_str v) acc); [done|].
  destruct (String.eqb_spec acc EmptyString) as [->|_]; [done|].
  by rewrite append_assoc.
Qed.

Lemma collect_ids_next_witness :
  collect_ids id_text EmptyString
    ([[("applianceId", JInt 15)]] ++ [[("applianceId", JInt 5)]])
  = Return (if contains (id_text (JInt 5)) "15" then "15"
            else if String.eqb "15" EmptyString then id_text (JInt 5)
            else "15" +:+ "," +:+ id_text (JInt 5)).
Proof.
  apply (collect_ids_next id_text [[("applianceId", JInt 15)]] "15"
           [("applianceId", JInt 5)] (JInt 5)).
  - vm_compute. reflexivity.
  - reflexivity.
Defined.

Lemma collect_ids_raises py_str (acc : string) (devices : list dict) :
  collect_ids py_str acc devices = Raise
  ↔ ∃ d, d ∈ devices ∧ dict_get "applianceId" d = None.
Proof.
  revert acc. induction devices as [|d r IH]; intros acc; simpl.
  - split; [discriminate|]. intros (d & Hd & _). by apply elem_of_nil in Hd.
  - destruct (dict_get "applianceId" d) as [v|] eqn:E.
    + rewrite IH. split.
      * intros (d' & Hd & Hn). exists d'. split; [by apply elem_of_cons; right | done].
      * intros (d' & Hd & Hn). apply elem_of_cons in Hd as [->|Hd]; [congruence|].
        by exists d'.
    + split; [|done]. intros _. exists d. split; [apply elem_of_cons; by left | done].
Qed.

(** X21: the loop raises exactly when some device has no
    [applianceId]. *)
Theorem collect_ids_raises_iff (py_str : json → string) (acc : string)
    (devices : list dict) :
  collect_ids py_str acc devices = Raise
  ↔ ∃ d, d ∈ devices ∧ dict_get "applianceId" d = None.
Proof. apply collect_ids_raises. Qed.

(** ** Joining devices and appliances *)

Lemma attach_keeps py_eq (d d' : dict) (appliances : list dict) (k : string) :
  attach py_eq d appliances = Return d' → k ≠ "appliance" →
  dict_get k d' = dict_get k d.
Proof.
  intros H Hk. revert d H.
  induction appliances as [|a r IH]; intros d H; simpl in H.
  - by injection H as <-.
  - destruct (dict_get "applianceId" a) as [x|]; [|discriminate].
    destruct (dict_get "applianceId" d) as [y|]; [|discriminate].
    rewrite (IH _ H). destruct (py_eq x y); [|done].
    by apply dict_get_set_ne.
Qed.

(** X22: the join returns as many devices as it was given, in the same
    order, and changes no field of a device but [appliance]. *)
Theorem attach_all_keeps_devices (py_eq : json → json → bool)
    (devices appliances devices' : list dict) :
  attach_all py_eq devices appliances = Return devices' →
  List.length devices' = List.length devices
  ∧ ∀ i d d' k, devices !! i = Some d → devices' !! i = Some d' →
                k ≠ "appliance" → dict_get k d' = dict_get k d.
Proof.
  revert devices'. induction devices as [|d0 r IH]; intros devices' H; simpl in H.
  - injection H as <-. split; [done|]. intros i d d' k Hd. by destruct i.
  - destruct (attach py_eq d0 appliances) as [|d0'] eqn:E; [discriminate|].
    destruct (attach_all py_eq r appliances) as [|r'] eqn:E'; [discriminate|].
    injection H as <-. destruct (IH r' eq_refl) as [Hlen Hk].
    split; [simpl; by rewrite Hlen|].
    intros [|i] d d' k Hd Hd' Hne; simpl in *.
    + simplify_eq. by eapply attach_keeps.
    + by eapply Hk.
Qed.

Lemma attach_all_keeps_devices_witness :
  List.length [[("applianceId", JInt 7); ("appliance", JObj [("applianceId", JInt 7)])]]
  = List.length [[("applianceId", JInt 7)]].
Proof.
  destruct (attach_all_keeps_devices same_id [[("applianceId", JInt 7)]]
              [[("applianceId", JInt 7)]]
              [[("applianceId", JInt 7); ("appliance", JObj [("applianceId", JInt 7)])]])
    as [H _].
  - vm_compute. reflexivity.
  - exact H.
Defined.

Lemma attach_app py_eq (d : dict) (p q : list dict) :
  attach py_eq d (p ++ q)
  = match attach py_eq d p with
    | Return d1 => attach py_eq d1 q
    | Raise => Raise
    end.
Proof.
  revert d. induction p as [|a p IH]; intros d; [done|]. simpl.
  destruct (dict_get "applianceId" a); [|done].
  destruct (dict_get "applianceId" d); [apply IH | done].
Qed.

Lemma attach_no_match py_eq (d d' : dict) (y : json) (appliances : list dict) :
  dict_get "applianceId" d = Some y →
  (∀ b xb, b ∈ appliances → dict_get "applianceId" b = Some xb → py_eq xb y = false) →
  attach py_eq d appliances = Return d' → d' = d.
Proof.
  intros Hy Hno. induction appliances as [|a r IH]; intros H; simpl in H.
  - by injection H as <-.
  - destruct (dict_get "applianceId" a) as [x|] eqn:E; [|discriminate].
    rewrite Hy in H.
    rewrite (Hno a x) in H; [|apply elem_of_cons; by left | done].
    apply IH; [|done]. intros b xb Hb. apply Hno. apply elem_of_cons. by right.
Qed.

(** X23: a device gets, under [appliance], the last appliance of the
    list whose [applianceId] equals its own; a device that no appliance
    matches is returned as it was. *)
Theorem attach_last_match (py_eq : json → json → bool) (d d' a : dict) (x y : json)
    (pre post : list dict) :
  dict_get "applianceId" d = Some y →
  dict_get "applianceId" a = Some x → py_eq x y = true →
  (∀ b xb, b ∈ post → dict_get "applianceId" b = Some xb → py_eq xb y = false) →
  attach py_eq d (pre ++ a :: post) = Return d' →
  dict_get "appliance" d' = Some (JObj a)
  ∧ ∀ d0 d0', dict_get "applianceId" d0 = Some y →
              attach py_eq d0 post = Return d0' → d0' = d0.
Proof.
  intros Hy Hx Heq Hno H. split.
  - rewrite attach_app in H.
    destruct (attach py_eq d pre) as [|d1] eqn:E; [discriminate|].
    assert (Hy1 : dict_get "applianceId" d1 = Some y).
    { rewrite <- Hy. by apply (attach_keeps py_eq d d1 pre). }
    simpl in H. rewrite Hx, Hy1, Heq in H.
    apply (attach_no_match py_eq _ d' y post) in H; [| |done].
    + rewrite H. apply dict_get_set_eq.
    + rewrite <- Hy1. by apply dict_get_set_ne.
  - intros d0 d0' Hy0 H0. by apply (attach_no_match py_eq d0 d0' y post).
Qed.

Lemma attach_last_match_witness :
  dict_get "appliance"
    [("applianceId", JInt 7); ("appliance", JObj [("applianceId", JInt 7); ("n", JInt 2)])]
  = Some (JObj [("applianceId", JInt 7); ("n", JInt 2)]).
Proof.
  destruct (attach_last_match same_id [("applianceId", JInt 7)]
              [("applianceId", JInt 7);
               ("appliance", JObj [("applianceId", JInt 7); ("n", JInt 2)])]
              [("applianceId", JInt 7); ("n", JInt 2)] (JInt 7) (JInt 7)
              [[("applianceId", JInt 7); ("n", JInt 1)]]
              [[("applianceId", JInt 8)]]) as [H _].
  - reflexivity.
  - reflexivity.
  - reflexivity.
  - intros b xb Hb Hxb. apply list_elem_of_singleton in Hb as ->.
    injection Hxb as <-. reflexivity.
  - vm_compute. reflexivity.
  - exact H.
Defined.

Lemma attach_all_nil py_eq (devices : list dict) :
  attach_all py_eq devices [] = Return devices.
Proof. induction devices as [|d r IH]; [done|]. simpl. by rewrite IH. Qed.

(** X24: when the device request is answered without success the result
    is the empty list and no appliance request is made; when the appliance
    request is answered without success the devices are returned as they
    were received, provided each of them has an [applianceId]. *)
Theorem async_get_devices_without_success (py_str : json → string)
    (py_eq : json → json → bool) (r1 : ListReply) (h2 : string → ListHttp) :
  (list_success r1 = false →
   async_get_devices py_str py_eq (ListResp r1) h2 = Return [])
  ∧ (list_success r1 = true →
     (∀ d, d ∈ lr_items r1 → dict_get "applianceId" d ≠ None) →
     (∀ ids, ∃ r2, h2 ids = ListResp r2 ∧ list_success r2 = false) →
     async_get_devices py_str py_eq (ListResp r1) h2 = Return (lr_items r1)).
Proof.
  unfold async_get_devices, async_get_thermostats. split.
  - by intros ->.
  - intros -> Hk H2.
    destruct (collect_ids py_str EmptyString (lr_items r1)) as [|ids] eqn:E.
    + apply collect_ids_raises in E as (d & Hd & Hn). by destruct (Hk d Hd).
    + destruct (H2 ids) as (r2 & -> & Hf). unfold async_get_thermostat_info.
      rewrite Hf. apply attach_all_nil.
Qed.

Lemma async_get_devices_without_success_witness :
  async_get_devices id_text same_id
    (ListResp (mkListReply 200 200 "SUCCESS" [[("applianceId", JInt 7)]]))
    (λ _, ListResp (mkListReply 500 0 "ERROR" []))
  = Return [[("applianceId", JInt 7)]].
Proof.
  destruct (async_get_devices_without_success id_text same_id
              (mkListReply 200 200 "SUCCESS" [[("applianceId", JInt 7)]])
              (λ _, ListResp (mkListReply 500 0 "ERROR" []))) as [_ H].
  apply H.
  - reflexivity.
  - intros d Hd. apply list_elem_of_singleton in Hd as ->. discriminate.
  - intros ids. eexists. split; reflexivity.
Defined.

(** ** The device snapshot *)

Lemma deliver_ok (mac : string) (l : nat) (devices : list dict) :
  (∀ d, d ∈ devices → dict_get "macAddress" d ≠ None) →
  deliver mac l devices
  = (map (pair l) (List.filter (has_mac mac) devices), false).
Proof.
  induction devices as [|d r IH]; intros Hk; [done|]. simpl.
  assert (Hd : dict_get "macAddress" d ≠ None) by (apply Hk, elem_of_cons; by left).
  unfold has_mac at 1. destruct (dict_get "macAddress" d) as [v|]; [|done].
  rewrite IH by (intros d' Hd'; apply Hk, elem_of_cons; by right).
  by destruct (is_mac v mac).
Qed.

Lemma deliver_all_ok (get_mac_address : nat → string) (listeners : list nat)
    (devices : list dict) :
  (∀ d, d ∈ devices → dict_get "macAddress" d ≠ None) →
  deliver_all get_mac_address listeners devices
  = (flat_map (λ l, map (pair l) (List.filter (has_mac (get_mac_address l)) devices))
       listeners, false).
Proof.
  intros Hk. induction listeners as [|l r IH]; [done|]. simpl.
  by rewrite (deliver_ok _ _ _ Hk), IH.
Qed.

(** X25: with the device list received and every device carrying a
    [macAddress], each listener, in the order of registration, is handed
    the devices with its own MAC address, in the order of the list, and
    nothing raises; a device whose MAC address no listener has is handed to
    nobody.  With the device request answered without success the call
    raises as soon as one listener is registered, and hands out
    nothing. *)
Theorem update_state_device_routing (get_mac_address : nat → string)
    (listeners : list nat) (r : ListReply) :
  (list_success r = true →
   (∀ d, d ∈ lr_items r → dict_get "macAddress" d ≠ None) →
   update_state_device get_mac_address listeners (ListResp r)
   = (flat_map
        (λ l, map (pair l) (List.filter (has_mac (get_mac_address l)) (lr_items r)))
        listeners, false))
  ∧ (list_success r = false →
     update_state_device get_mac_address listeners (ListResp r)
     = ([], match listeners with [] => false | _ :: _ => true end)).
Proof.
  unfold update_state_device, async_get_thermostats. split.
  - intros -> Hk. by apply deliver_all_ok.
  - intros ->. by destruct listeners.
Qed.

Lemma update_state_device_routing_witness :
  update_state_device (λ l, if Nat.eqb l 7 then "AA" else "BB") [7%nat; 8%nat]
    (ListResp (mkListReply 200 200 "SUCCESS"
                 [[("macAddress", JStr "BB")]; [("macAddress", JStr "CC")]]))
  = ([(8%nat, [("macAddress", JStr "BB")])], false).
Proof.
  destruct (update_state_device_routing (λ l, if Nat.eqb l 7 then "AA" else "BB")
              [7%nat; 8%nat]
              (mkListReply 200 200 "SUCCESS"
                 [[("macAddress", JStr "BB")]; [("macAddress", JStr "CC")]]))
    as [H _].
  rewrite H.
  - vm_compute. reflexivity.
  - reflexivity.
  - intros d Hd. apply elem_of_cons in Hd as [->|Hd]; [discriminate|].
    apply list_elem_of_singleton in Hd as ->. discriminate.
Defined.

(** X26: a device without [macAddress] makes the call raise at that
    device: the calls made before it stand, no device after it and no
    later listener is served. *)
Theorem update_stops_at_missing_mac (get_mac_address : nat → string) (l : nat)
    (listeners : list nat) (pre post : list dict) (d : dict) :
  (∀ d0, d0 ∈ pre → dict_get "macAddress" d0 ≠ None) →
  dict_get "macAddress" d = None →
  deliver_all get_mac_address (l :: listeners) (pre ++ d :: post)
  = (map (pair l) (List.filter (has_mac (get_mac_address l)) pre), true).
Proof.
  intros Hk Hd.
  assert (H : deliver (get_mac_address l) l (pre ++ d :: post)
              = (map (pair l) (List.filter (has_mac (get_mac_address l)) pre), true)).
  { induction pre as [|d0 r IH]; simpl.
    - by rewrite Hd.
    - assert (H0 : dict_get "macAddress" d0 ≠ None)
        by (apply Hk, elem_of_cons; by left).
      unfold has_mac at 1. destruct (dict_get "macAddress" d0) as [v|]; [|done].
      rewrite IH by (intros d' Hd'; apply Hk, elem_of_cons; by right).
      by destruct (is_mac v (get_mac_address l)). }
  simpl. by rewrite H.
Qed.

Lemma update_stops_at_missing_mac_witness :
  deliver_all (λ _, "AA") [7%nat; 8%nat]
    ([[("macAddress", JStr "AA")]] ++ [("name", JStr "x")] :: [])
  = (map (pair 7%nat) (List.filter (has_mac "AA") [[("macAddress", JStr "AA")]]), true).
Proof.
  apply (update_stops_at_missing_mac (λ _, "AA") 7 [8%nat]
           [[("macAddress", JStr "AA")]] [] [("name", JStr "x")]).
  - intros d0 Hd. apply list_elem_of_singleton in Hd as ->. discriminate.
  - reflexivity.
Defined.

(** ** The API key *)

Lemma length_append (a b : string) :
  String.length (a +:+ b) = (String.length a + String.length b)%nat.
Proof.
  induction a as [|x a IH]; [done|].
  change (S (String.length (a +:+ b)) = S (String.length a + String.length b)).
  by rewrite IH.
Qed.

Lemma index_after (p s1 s2 : string) (n : nat) :
  String.index (String.length p + n) s1 (p +:+ s2)
  = option_map (Nat.add (String.length p)) (String.index n s1 s2).
Proof.
  induction p as [|c p IH].
  { change (String.index n s1 s2 = option_map (Nat.add 0) (String.index n s1 s2)).
    by destruct (String.index n s1 s2). }
  change (String.index (S (String.length p + n)) s1 (String c (p +:+ s2))
          = option_map (Nat.add (S (String.length p))) (String.index n s1 s2)).
  simpl. rewrite IH. by destruct (String.index n s1 s2).
Qed.

Lemma index_char_first (c : ascii) (b q : string) :
  has_char c b = false →
  String.index 0 (String c EmptyString) (b +:+ String c q) = Some (String.length b).
Proof.
  induction b as [|x b IH]; intros H.
  - change (String.index 0 (String c EmptyString) (String c q) = Some 0%nat).
    simpl. destruct (ascii_dec c c); [|done]. by destruct q.
  - simpl in H. apply orb_false_iff in H as [Hx Hb].
    change (String.index 0 (String c EmptyString) (String x (b +:+ String c q))
            = Some (S (String.length b))).
    simpl. destruct (ascii_dec c x) as [->|_].
    + by rewrite Ascii.eqb_refl in Hx.
    + by rewrite (IH Hb).
Qed.

Lemma remove_char_absent (c : ascii) (s : string) :
  has_char c s = false → remove_char c s = s.
Proof.
  induction s as [|x s IH]; [done|]. simpl. intros [Hx Hs]%orb_false_iff.
  rewrite Hx. by rewrite IH.
Qed.

(** X27: what is extracted never contains a double quote. *)
Theorem scrape_has_no_quote (marker stop : string) (skip : Z) (html_text : string) :
  has_char dquote (scrape marker stop skip html_text) = false.
Proof.
  unfold scrape. generalize (py_slice html_text
    (py_find marker html_text 0 + skip)
    (py_find stop html_text (py_find marker html_text 0 + skip))).
  intros s. induction s as [|x s IH]; [done|]. simpl.
  destruct (Ascii.eqb x dquote) eqn:E; [exact IH|]. simpl. by rewrite E.
Qed.

Lemma scrape_found (marker m1 m2 pre body post : string) (stopc : ascii) (skip : Z) :
  marker = m1 +:+ m2 → skip = Z.of_nat (String.length m1) →
  String.index 0 marker (pre +:+ marker +:+ body +:+ String stopc post)
  = Some (String.length pre) →
  has_char stopc (m2 +:+ body) = false →
  scrape marker (String stopc EmptyString) skip
    (pre +:+ marker +:+ body +:+ String stopc post)
  = remove_char dquote (m2 +:+ body).
Proof.
  intros -> -> Hi Hb. unfold scrape, py_find.
  change (Z.to_nat 0) with 0%nat. rewrite Hi.
  assert (Et : pre +:+ (m1 +:+ m2) +:+ body +:+ String stopc post
               = (pre +:+ m1) +:+ (m2 +:+ body) +:+ String stopc post)
    by (by rewrite !append_assoc).
  rewrite Et.
  replace (Z.to_nat (Z.of_nat (String.length pre) + Z.of_nat (String.length m1)))
    with (String.length (pre +:+ m1) + 0)%nat by (rewrite length_append; lia).
  rewrite index_after.
  rewrite (index_char_first stopc (m2 +:+ body) post Hb).
  cbn [option_map]. f_equal. unfold py_slice, py_bound.
  rewrite !length_append. cbn [String.length].
  repeat match goal with
         | |- context [?a <? 0] => destruct (Z.ltb_spec a 0); [lia|]
         end.
  match goal with
  | |- String.substring ?a ?b _ = _ =>
      replace a with (String.length (pre +:+ m1)) by (rewrite length_append; lia);
      replace b with (String.length (m2 +:+ body)) by (rewrite length_append; lia)
  end.
  apply substring_at.
Qed.

Lemma has_char_append (c : ascii) (a b : string) :
  has_char c (a +:+ b) = has_char c a || has_char c b.
Proof.
  induction a as [|x a IH]; [done|].
  change (Ascii.eqb x c || has_char c (a +:+ b)
          = Ascii.eqb x c || has_char c a || has_char c b).
  by rewrite IH, orb_assoc.
Qed.

(** X28: when the login page holds the marker [main_marker] for the first time after
    [pre], followed by [body] without a double quote and then a double
    quote, the script's address is [main.] followed by [body]. *)
Theorem main_js_url_found (pre body post : string) :
  String.index 0 main_marker (pre +:+ main_marker +:+ body +:+ String dquote post)
  = Some (String.length pre) →
  has_char dquote body = false →
  main_js_url (pre +:+ main_marker +:+ body +:+ String dquote post)
  = "main." +:+ body.
Proof.
  intros Hi Hb. unfold main_js_url.
  assert (Hq : has_char dquote ("main." +:+ body) = false)
    by (by rewrite has_char_append, Hb).
  rewrite (scrape_found main_marker ("src=" +:+ String dquote EmptyString) "main."
             pre body post dquote 5) by done.
  by apply remove_char_absent.
Qed.

Lemma main_js_url_found_witness :
  main_js_url ("<script " +:+ main_marker +:+ "1a2b.js" +:+ String dquote "></script>")
  = "main." +:+ "1a2b.js".
Proof.
  apply (main_js_url_found "<script " "1a2b.js" "></script>").
  - vm_compute. reflexivity.
  - reflexivity.
Defined.

(** X29: when the script holds [apiKey:] for the first time after
    [pre], followed by [body] without a comma and then a comma, the key is
    [body] with its double quotes removed. *)
Theorem x_api_key_found (pre body post : string) :
  String.index 0 "apiKey:" (pre +:+ "apiKey:" +:+ body +:+ String "," post)
  = Some (String.length pre) →
  has_char "," body = false →
  x_api_key (pre +:+ "apiKey:" +:+ body +:+ String "," post)
  = remove_char dquote body.
Proof.
  intros Hi Hb. unfold x_api_key.
  by rewrite (scrape_found "apiKey:" "apiKey:" EmptyString pre body post "," 7).
Qed.

Lemma x_api_key_found_witness :
  x_api_key ("{" +:+ "apiKey:" +:+ String dquote ("k3y" +:+ String dquote EmptyString)
             +:+ String "," "region:1}")
  = remove_char dquote (String dquote ("k3y" +:+ String dquote EmptyString)).
Proof.
  apply (x_api_key_found "{" (String dquote ("k3y" +:+ String dquote EmptyString))
           "region:1}").
  - vm_compute. reflexivity.
  - reflexivity.
Defined.

Lemma index_char_absent (c : ascii) (s : string) (n : nat) :
  has_char c s = false → String.index n (String c EmptyString) s = None.
Proof.
  revert n. induction s as [|x s IH]; intros n H.
  - by destruct n.
  - simpl in H. apply orb_false_iff in H as [Hx Hs].
    destruct n as [|n]; simpl.
    + destruct (ascii_dec c x) as [->|_]; [by rewrite Ascii.eqb_refl in Hx|].
      by rewrite (IH 0%nat Hs).
    + by rewrite (IH n Hs).
Qed.

Lemma has_char_substring (c : ascii) (s : string) (n m : nat) :
  has_char c s = false → has_char c (String.substring n m s) = false.
Proof.
  revert n m. induction s as [|x s IH]; intros n m H.
  - by destruct n, m.
  - simpl in H. apply orb_false_iff in H as [Hx Hs].
    destruct n as [|n]; [destruct m as [|m]|]; simpl; [done| |by apply IH].
    rewrite Hx. by apply IH.
Qed.

(** X30: when the login page holds neither the marker [main_marker] nor any double
    quote, the address is not empty for lack of the marker: it is the page
    without its first four characters and its last one,
    [html_text[4:-1]]. *)
Theorem main_js_url_without_marker (html_text : string) :
  String.index 0 main_marker html_text = None →
  has_char dquote html_text = false →
  main_js_url html_text = py_slice html_text 4 (-1).
Proof.
  intros Hm Hq. unfold main_js_url, scrape, py_find.
  change (Z.to_nat 0) with 0%nat. rewrite Hm.
  change (Z.to_nat (-1 + 5)) with 4%nat.
  rewrite (index_char_absent dquote html_text 4 Hq).
  apply remove_char_absent. unfold py_slice. by apply has_char_substring.
Qed.

Lemma main_js_url_without_marker_witness :
  main_js_url "<html>maintenance</html>" = py_slice "<html>maintenance</html>" 4 (-1).
Proof.
  apply main_js_url_without_marker.
  - vm_compute. reflexivity.
  - reflexivity.
Defined.
